(** * override-rules: the Sub-Store conversion script [convert.js]

    A shallow embedding of the script and the properties of its region
    classification, proxy-group synthesis and rule list.

    Text is held as UTF-8 bytes ([string]).  The script only compares text
    for equality, concatenates it and searches it for literal keywords, and
    on well-formed text these agree on UTF-8 bytes and on UTF-16 code
    units.

    Objects are association lists in insertion order.  The feature flags,
    which the script reads once into module-level constants, are a
    parameter of [main]; [convert] is the script as loaded, from the raw
    arguments.  The module-level array [baseRules], which [buildRules]
    copies before it changes the copy, lives in a store that [main]
    threads, so that a run can be followed by another. *)

From Stdlib Require Import String Ascii List ZArith Bool Lia Arith Permutation.
Import ListNotations.
Open Scope string_scope.
Open Scope list_scope.

Set Implicit Arguments.
Set Warnings "-register-all".

(** ** JavaScript values and objects *)

(** The values the script builds and receives.  An object keeps its keys in
    insertion order, which is the order [Object.entries] and a serializer
    see (no key of this script is an integer index). *)
Inductive Value : Type :=
| VUndefined
| VNull
| VBool (b : bool)
| VNum (n : Z)
| VStr (s : string)
| VArr (items : list Value)
| VObj (props : list (string * Value)).

Section Objects.
Variable V : Type.

(** An object as its own properties, in insertion order. *)
Definition Obj := list (string * V).

(** [o[k]] on own properties; [None] is JavaScript's [undefined]. *)
Fixpoint obj_get (k : string) (o : Obj) : option V :=
  match o with
  | [] => None
  | (k', v) :: rest => if String.eqb k k' then Some v else obj_get k rest
  end.

(** [o[k] = v]: an existing key keeps its place, a new key goes last. *)
Fixpoint obj_set (k : string) (v : V) (o : Obj) : Obj :=
  match o with
  | [] => [(k, v)]
  | (k', v') :: rest =>
      if String.eqb k k' then (k', v) :: rest else (k', v') :: obj_set k v rest
  end.

(** [Object.assign(target, source)]. *)
Definition Object_assign (target source : Obj) : Obj :=
  fold_left (fun acc kv => obj_set (fst kv) (snd kv) acc) source target.

Definition obj_keys (o : Obj) : list string := map fst o.
End Objects.

(** ** Text helpers *)

(** [String.prototype.toLowerCase] on the ASCII letters.  Outside ASCII the
    only code points whose lower case contains an ASCII letter are U+212A
    (to k) and U+0130 (to i followed by a combining dot), so comparing the
    result with the text 'true' is not affected. *)
Definition lower_ascii (c : ascii) : ascii :=
  let n := nat_of_ascii c in
  if (65 <=? n)%nat && (n <=? 90)%nat then ascii_of_nat (n + 32) else c.

Fixpoint toLowerCase (s : string) : string :=
  match s with
  | EmptyString => EmptyString
  | String c rest => String (lower_ascii c) (toLowerCase rest)
  end.

(** [haystack.includes(needle)] on text. *)
Fixpoint str_includes (needle haystack : string) : bool :=
  String.prefix needle haystack
  || match haystack with
     | EmptyString => false
     | String _ rest => str_includes needle rest
     end.

(** [s.replace(/suffix$/, '')] for a literal, non-empty [suffix]: the text
    without that ending, or [None] when the pattern does not match. *)
Fixpoint match_at_end (suffix s : string) : option string :=
  if String.eqb s suffix then Some EmptyString
  else match s with
       | EmptyString => None
       | String c rest => option_map (String c) (match_at_end suffix rest)
       end.

(** [s.split(sep)] for a one-character separator. *)
Fixpoint split_on (sep : ascii) (s : string) : list string :=
  match s with
  | EmptyString => [EmptyString]
  | String c rest =>
      if Ascii.eqb c sep then EmptyString :: split_on sep rest
      else match split_on sep rest with
           | [] => [String c EmptyString]
           | piece :: pieces => String c piece :: pieces
           end
  end.

(** ** Regular expressions

    Every pattern of the script is an alternation of sequences of literal
    characters and, once, a digit class.  Matching is unanchored.  The [i]
    flag folds the ASCII letters only: without the [u] flag a character
    outside ASCII never folds onto an ASCII one, and the other characters
    of the patterns are CJK, which have no case. *)
Inductive Atom : Type :=
| Chr (c : ascii)
| Class (lo hi : ascii).

Record RegExp : Type := mkRegExp {
  alternatives : list (list Atom);
  ignoreCase : bool
}.

Definition literal (s : string) : list Atom := map Chr (list_ascii_of_string s).

Definition fold_case (ignore : bool) (c : ascii) : ascii :=
  if ignore then lower_ascii c else c.

Definition atom_accepts (ignore : bool) (a : Atom) (c : ascii) : bool :=
  match a with
  | Chr p => Ascii.eqb (fold_case ignore p) (fold_case ignore c)
  | Class lo hi =>
      (nat_of_ascii lo <=? nat_of_ascii c)%nat && (nat_of_ascii c <=? nat_of_ascii hi)%nat
  end.

(** Does the sequence match at the start of [s]? *)
Fixpoint match_here (ignore : bool) (p : list Atom) (s : string) : bool :=
  match p, s with
  | [], _ => true
  | _ :: _, EmptyString => false
  | a :: p', String c rest => atom_accepts ignore a c && match_here ignore p' rest
  end.

Definition match_any_here (re : RegExp) (s : string) : bool :=
  existsb (fun p => match_here (ignoreCase re) p s) (alternatives re).

(** [re.test(s)]: some alternative matches at some position. *)
Fixpoint test (re : RegExp) (s : string) : bool :=
  match_any_here re s
  || match s with
     | EmptyString => false
     | String _ rest => test re rest
     end.

(** The characters that are not literal in a pattern, [|] apart. *)
Definition metacharacters : string := "\^$.*+?()[]{}".

Definition plain_pattern (pattern : string) : bool :=
  forallb (fun c => negb (existsb (Ascii.eqb c) (list_ascii_of_string metacharacters)))
          (list_ascii_of_string pattern).

(** [new RegExp(pattern)] for a pattern made of literal alternatives
    ([plain_pattern]), which all the region patterns are. *)
Definition new_RegExp (pattern : string) : RegExp :=
  mkRegExp (map literal (split_on "|"%char pattern)) false.

(** [pattern.replace(/^\(\?i\)/, '')]. *)
Definition strip_inline_flag (pattern : string) : string :=
  if String.prefix "(?i)" pattern
  then String.substring 4 (String.length pattern - 4) pattern
  else pattern.

(** ** Script arguments and feature flags *)

Definition NODE_SUFFIX : string := "节点".

(** The raw arguments object, [$arguments] or [{}]. *)
Definition Args := Obj Value.

(** [args[key]]: a missing property reads as [undefined]. *)
Definition arg (args : Args) (key : string) : Value :=
  match obj_get key args with
  | Some v => v
  | None => VUndefined
  end.

Definition parseBool (value : Value) : bool :=
  match value with
  | VBool b => b
  | VStr s => String.eqb (toLowerCase s) "true" || String.eqb s "1"
  | _ => false
  end.

Record Flags : Type := mkFlags {
  loadBalance : bool;
  landing : bool;
  ipv6Enabled : bool;
  fullConfig : bool;
  keepAliveEnabled : bool;
  fakeIPEnabled : bool;
  quicEnabled : bool;
  countryThreshold : Z
}.

Section FeatureFlags.
(** The host's [parseInt(value, 10)]; [None] is [NaN]. *)
Variable parseInt10 : Value -> option Z.

Definition parseNumber (value : Value) (defaultValue : Z) : Z :=
  match value with
  | VNull | VUndefined => defaultValue
  | _ => match parseInt10 value with
         | None => defaultValue
         | Some num => num
         end
  end.

(** External parameter name to internal flag name. *)
Definition flag_spec : list (string * string) :=
  [ ("loadbalance", "loadBalance");
    ("landing", "landing");
    ("ipv6", "ipv6Enabled");
    ("full", "fullConfig");
    ("keepalive", "keepAliveEnabled");
    ("fakeip", "fakeIPEnabled");
    ("quic", "quicEnabled") ].

(** The object the [reduce] builds, then [countryThreshold] is set. *)
Definition flags_object (args : Args) : Obj Value :=
  let flags :=
    fold_left
      (fun acc entry =>
         let '(sourceKey, targetKey) := entry in
         obj_set targetKey (VBool (parseBool (arg args sourceKey) || false)) acc)
      flag_spec [] in
  obj_set "countryThreshold" (VNum (parseNumber (arg args "threshold") 0)) flags.

Definition flag_of (o : Obj Value) (key : string) : bool :=
  match obj_get key o with
  | Some (VBool b) => b
  | _ => false
  end.

Definition number_of (o : Obj Value) (key : string) : Z :=
  match obj_get key o with
  | Some (VNum n) => n
  | _ => 0%Z
  end.

(** [buildFeatureFlags(rawArgs)], destructured as the script does. *)
Definition buildFeatureFlags (args : Args) : Flags :=
  let o := flags_object args in
  {| loadBalance := flag_of o "loadBalance";
     landing := flag_of o "landing";
     ipv6Enabled := flag_of o "ipv6Enabled";
     fullConfig := flag_of o "fullConfig";
     keepAliveEnabled := flag_of o "keepAliveEnabled";
     fakeIPEnabled := flag_of o "fakeIPEnabled";
     quicEnabled := flag_of o "quicEnabled";
     countryThreshold := number_of o "countryThreshold" |}.
End FeatureFlags.

(** ** Region counts and selector names *)

Record RegionCount : Type := mkRegionCount {
  country : string;
  count : Z
}.

Definition getCountryGroupNames (countryInfo : list RegionCount) (minCount : Z)
  : list string :=
  map (fun item => (country item ++ NODE_SUFFIX)%string)
      (filter (fun item => (count item >=? minCount)%Z) countryInfo).

Definition stripNodeSuffix (groupNames : list string) : list string :=
  map (fun name => match match_at_end NODE_SUFFIX name with
                   | Some stem => stem
                   | None => name
                   end)
      groupNames.

Module PROXY_GROUPS.
Definition SELECT : string := "选择代理".
Definition MANUAL : string := "手动选择".
Definition FALLBACK : string := "故障转移".
Definition DIRECT : string := "直连".
Definition LANDING : string := "落地节点".
Definition LOW_COST : string := "低倍率节点".
End PROXY_GROUPS.

(** An argument of [buildList]: a name, the [false] left by [flag && name],
    or an array of names. *)
Inductive ListElement : Type :=
| EName (s : string)
| EFalse
| ENames (l : list string).

(** [flag && name]. *)
Definition when (flag : bool) (name : string) : ListElement :=
  if flag then EName name else EFalse.

(** [elements.flat()]: arrays are spliced in, one level. *)
Definition flat (elements : list ListElement) : list ListElement :=
  flat_map (fun e => match e with
                     | ENames l => map EName l
                     | _ => [e]
                     end)
           elements.

(** [.filter(Boolean)]: [false] and the empty text are dropped. *)
Definition filter_Boolean (elements : list ListElement) : list string :=
  flat_map (fun e => match e with
                     | EName s => if String.eqb s "" then [] else [s]
                     | EFalse => []
                     | ENames _ => []
                     end)
           elements.

Definition buildList (elements : list ListElement) : list string :=
  filter_Boolean (flat elements).

Record BaseLists : Type := mkBaseLists {
  defaultProxies : list string;
  defaultProxiesDirect : list string;
  defaultSelector : list string;
  defaultFallback : list string
}.

Definition buildBaseLists (landing lowCost : bool) (countryGroupNames : list string)
  : BaseLists :=
  {| defaultSelector :=
       buildList [ EName PROXY_GROUPS.FALLBACK;
                   when landing PROXY_GROUPS.LANDING;
                   ENames countryGroupNames;
                   when lowCost PROXY_GROUPS.LOW_COST;
                   EName PROXY_GROUPS.MANUAL;
                   EName "DIRECT" ];
     defaultProxies :=
       buildList [ EName PROXY_GROUPS.SELECT;
                   ENames countryGroupNames;
                   when lowCost PROXY_GROUPS.LOW_COST;
                   EName PROXY_GROUPS.MANUAL;
                   EName PROXY_GROUPS.DIRECT ];
     defaultProxiesDirect :=
       buildList [ EName PROXY_GROUPS.DIRECT;
                   ENames countryGroupNames;
                   when lowCost PROXY_GROUPS.LOW_COST;
                   EName PROXY_GROUPS.SELECT;
                   EName PROXY_GROUPS.MANUAL ];
     defaultFallback :=
       buildList [ when landing PROXY_GROUPS.LANDING;
                   ENames countryGroupNames;
                   when lowCost PROXY_GROUPS.LOW_COST;
                   EName PROXY_GROUPS.MANUAL;
                   EName "DIRECT" ] |}.

(** An array of names as a value. *)
Definition names (l : list string) : Value := VArr (map VStr l).

(** [o.key] read as a value. *)
Definition prop (o : Obj Value) (key : string) : Value :=
  match obj_get key o with
  | Some v => v
  | None => VUndefined
  end.

(** ** Static tables *)

Definition ruleProviders : Obj Value :=
  [
    ("fakeip-filter",
     VObj [ ("type", VStr "http");
            ("behavior", VStr "domain");
            ("format", VStr "mrs");
            ("path", VStr "./ruleset/fakeip-filter.mrs");
            ("url", VStr "https://github.com/DustinWin/ruleset_geodata/releases/download/mihomo-ruleset/fakeip-filter.mrs");
            ("interval", VNum 86400) ]);
    ("private",
     VObj [ ("type", VStr "http");
            ("behavior", VStr "domain");
            ("format", VStr "mrs");
            ("path", VStr "./ruleset/private.mrs");
            ("url", VStr "https://github.com/DustinWin/ruleset_geodata/releases/download/mihomo-ruleset/private.mrs");
            ("interval", VNum 86400) ]);
    ("ads",
     VObj [ ("type", VStr "http");
            ("behavior", VStr "domain");
            ("format", VStr "mrs");
            ("path", VStr "./ruleset/ads.mrs");
            ("url", VStr "https://github.com/DustinWin/ruleset_geodata/releases/download/mihomo-ruleset/ads.mrs");
            ("interval", VNum 86400) ]);
    ("trackerslist",
     VObj [ ("type", VStr "http");
            ("behavior", VStr "domain");
            ("format", VStr "mrs");
            ("path", VStr "./ruleset/trackerslist.mrs");
            ("url", VStr "https://github.com/DustinWin/ruleset_geodata/releases/download/mihomo-ruleset/trackerslist.mrs");
            ("interval", VNum 86400) ]);
    ("applications",
     VObj [ ("type", VStr "http");
            ("behavior", VStr "classical");
            ("format", VStr "text");
            ("path", VStr "./ruleset/applications.list");
            ("url", VStr "https://github.com/DustinWin/ruleset_geodata/releases/download/mihomo-ruleset/applications.list");
            ("interval", VNum 86400) ]);
    ("microsoft-cn",
     VObj [ ("type", VStr "http");
            ("behavior", VStr "domain");
            ("format", VStr "mrs");
            ("path", VStr "./ruleset/microsoft-cn.mrs");
            ("url", VStr "https://github.com/DustinWin/ruleset_geodata/releases/download/mihomo-ruleset/microsoft-cn.mrs");
            ("interval", VNum 86400) ]);
    ("apple-cn",
     VObj [ ("type", VStr "http");
            ("behavior", VStr "domain");
            ("format", VStr "mrs");
            ("path", VStr "./ruleset/apple-cn.mrs");
            ("url", VStr "https://github.com/DustinWin/ruleset_geodata/releases/download/mihomo-ruleset/apple-cn.mrs");
            ("interval", VNum 86400) ]);
    ("google-cn",
     VObj [ ("type", VStr "http");
            ("behavior", VStr "domain");
            ("format", VStr "mrs");
            ("path", VStr "./ruleset/google-cn.mrs");
            ("url", VStr "https://github.com/DustinWin/ruleset_geodata/releases/download/mihomo-ruleset/google-cn.mrs");
            ("interval", VNum 86400) ]);
    ("games-cn",
     VObj [ ("type", VStr "http");
            ("behavior", VStr "domain");
            ("format", VStr "mrs");
            ("path", VStr "./ruleset/games-cn.mrs");
            ("url", VStr "https://github.com/DustinWin/ruleset_geodata/releases/download/mihomo-ruleset/games-cn.mrs");
            ("interval", VNum 86400) ]);
    ("netflix",
     VObj [ ("type", VStr "http");
            ("behavior", VStr "domain");
            ("format", VStr "mrs");
            ("path", VStr "./ruleset/netflix.mrs");
            ("url", VStr "https://github.com/DustinWin/ruleset_geodata/releases/download/mihomo-ruleset/netflix.mrs");
            ("interval", VNum 86400) ]);
    ("disney",
     VObj [ ("type", VStr "http");
            ("behavior", VStr "domain");
            ("format", VStr "mrs");
            ("path", VStr "./ruleset/disney.mrs");
            ("url", VStr "https://github.com/DustinWin/ruleset_geodata/releases/download/mihomo-ruleset/disney.mrs");
            ("interval", VNum 86400) ]);
    ("max",
     VObj [ ("type", VStr "http");
            ("behavior", VStr "domain");
            ("format", VStr "mrs");
            ("path", VStr "./ruleset/max.mrs");
            ("url", VStr "https://github.com/DustinWin/ruleset_geodata/releases/download/mihomo-ruleset/max.mrs");
            ("interval", VNum 86400) ]);
    ("primevideo",
     VObj [ ("type", VStr "http");
            ("behavior", VStr "domain");
            ("format", VStr "mrs");
            ("path", VStr "./ruleset/primevideo.mrs");
            ("url", VStr "https://github.com/DustinWin/ruleset_geodata/releases/download/mihomo-ruleset/primevideo.mrs");
            ("interval", VNum 86400) ]);
    ("appletv",
     VObj [ ("type", VStr "http");
            ("behavior", VStr "domain");
            ("format", VStr "mrs");
            ("path", VStr "./ruleset/appletv.mrs");
            ("url", VStr "https://github.com/DustinWin/ruleset_geodata/releases/download/mihomo-ruleset/appletv.mrs");
            ("interval", VNum 86400) ]);
    ("youtube",
     VObj [ ("type", VStr "http");
            ("behavior", VStr "domain");
            ("format", VStr "mrs");
            ("path", VStr "./ruleset/youtube.mrs");
            ("url", VStr "https://github.com/DustinWin/ruleset_geodata/releases/download/mihomo-ruleset/youtube.mrs");
            ("interval", VNum 86400) ]);
    ("tiktok",
     VObj [ ("type", VStr "http");
            ("behavior", VStr "domain");
            ("format", VStr "mrs");
            ("path", VStr "./ruleset/tiktok.mrs");
            ("url", VStr "https://github.com/DustinWin/ruleset_geodata/releases/download/mihomo-ruleset/tiktok.mrs");
            ("interval", VNum 86400) ]);
    ("bilibili",
     VObj [ ("type", VStr "http");
            ("behavior", VStr "domain");
            ("format", VStr "mrs");
            ("path", VStr "./ruleset/bilibili.mrs");
            ("url", VStr "https://github.com/DustinWin/ruleset_geodata/releases/download/mihomo-ruleset/bilibili.mrs");
            ("interval", VNum 86400) ]);
    ("spotify",
     VObj [ ("type", VStr "http");
            ("behavior", VStr "domain");
            ("format", VStr "mrs");
            ("path", VStr "./ruleset/spotify.mrs");
            ("url", VStr "https://github.com/DustinWin/ruleset_geodata/releases/download/mihomo-ruleset/spotify.mrs");
            ("interval", VNum 86400) ]);
    ("media",
     VObj [ ("type", VStr "http");
            ("behavior", VStr "domain");
            ("format", VStr "mrs");
            ("path", VStr "./ruleset/media.mrs");
            ("url", VStr "https://github.com/DustinWin/ruleset_geodata/releases/download/mihomo-ruleset/media.mrs");
            ("interval", VNum 86400) ]);
    ("games",
     VObj [ ("type", VStr "http");
            ("behavior", VStr "domain");
            ("format", VStr "mrs");
            ("path", VStr "./ruleset/games.mrs");
            ("url", VStr "https://github.com/DustinWin/ruleset_geodata/releases/download/mihomo-ruleset/games.mrs");
            ("interval", VNum 86400) ]);
    ("ai",
     VObj [ ("type", VStr "http");
            ("behavior", VStr "domain");
            ("format", VStr "mrs");
            ("path", VStr "./ruleset/ai.mrs");
            ("url", VStr "https://github.com/DustinWin/ruleset_geodata/releases/download/mihomo-ruleset/ai.mrs");
            ("interval", VNum 86400) ]);
    ("networktest",
     VObj [ ("type", VStr "http");
            ("behavior", VStr "domain");
            ("format", VStr "mrs");
            ("path", VStr "./ruleset/networktest.mrs");
            ("url", VStr "https://github.com/DustinWin/ruleset_geodata/releases/download/mihomo-ruleset/networktest.mrs");
            ("interval", VNum 86400) ]);
    ("tld-proxy",
     VObj [ ("type", VStr "http");
            ("behavior", VStr "domain");
            ("format", VStr "mrs");
            ("path", VStr "./ruleset/tld-proxy.mrs");
            ("url", VStr "https://github.com/DustinWin/ruleset_geodata/releases/download/mihomo-ruleset/tld-proxy.mrs");
            ("interval", VNum 86400) ]);
    ("gfw",
     VObj [ ("type", VStr "http");
            ("behavior", VStr "domain");
            ("format", VStr "mrs");
            ("path", VStr "./ruleset/gfw.mrs");
            ("url", VStr "https://github.com/DustinWin/ruleset_geodata/releases/download/mihomo-ruleset/gfw.mrs");
            ("interval", VNum 86400) ]);
    ("cn",
     VObj [ ("type", VStr "http");
            ("behavior", VStr "domain");
            ("format", VStr "mrs");
            ("path", VStr "./ruleset/cn.mrs");
            ("url", VStr "https://github.com/DustinWin/ruleset_geodata/releases/download/mihomo-ruleset/cn.mrs");
            ("interval", VNum 86400) ]);
    ("privateip",
     VObj [ ("type", VStr "http");
            ("behavior", VStr "ipcidr");
            ("format", VStr "mrs");
            ("path", VStr "./ruleset/privateip.mrs");
            ("url", VStr "https://github.com/DustinWin/ruleset_geodata/releases/download/mihomo-ruleset/privateip.mrs");
            ("interval", VNum 86400) ]);
    ("cnip",
     VObj [ ("type", VStr "http");
            ("behavior", VStr "ipcidr");
            ("format", VStr "mrs");
            ("path", VStr "./ruleset/cnip.mrs");
            ("url", VStr "https://github.com/DustinWin/ruleset_geodata/releases/download/mihomo-ruleset/cnip.mrs");
            ("interval", VNum 86400) ]);
    ("netflixip",
     VObj [ ("type", VStr "http");
            ("behavior", VStr "ipcidr");
            ("format", VStr "mrs");
            ("path", VStr "./ruleset/netflixip.mrs");
            ("url", VStr "https://github.com/DustinWin/ruleset_geodata/releases/download/mihomo-ruleset/netflixip.mrs");
            ("interval", VNum 86400) ]);
    ("mediaip",
     VObj [ ("type", VStr "http");
            ("behavior", VStr "ipcidr");
            ("format", VStr "mrs");
            ("path", VStr "./ruleset/mediaip.mrs");
            ("url", VStr "https://github.com/DustinWin/ruleset_geodata/releases/download/mihomo-ruleset/mediaip.mrs");
            ("interval", VNum 86400) ]);
    ("gamesip",
     VObj [ ("type", VStr "http");
            ("behavior", VStr "ipcidr");
            ("format", VStr "mrs");
            ("path", VStr "./ruleset/gamesip.mrs");
            ("url", VStr "https://github.com/DustinWin/ruleset_geodata/releases/download/mihomo-ruleset/gamesip.mrs");
            ("interval", VNum 86400) ]);
    ("telegramip",
     VObj [ ("type", VStr "http");
            ("behavior", VStr "ipcidr");
            ("format", VStr "mrs");
            ("path", VStr "./ruleset/telegramip.mrs");
            ("url", VStr "https://github.com/DustinWin/ruleset_geodata/releases/download/mihomo-ruleset/telegramip.mrs");
            ("interval", VNum 86400) ]) ].

(** The contents of the module-level array [baseRules]. *)
Definition baseRules_entries : list string :=
  [ "RULE-SET,private,🔒 私有网络";
    "RULE-SET,ads,🛑 广告域名";
    "RULE-SET,trackerslist,📋 Trackerslist";
    "RULE-SET,applications,⬇️ 直连软件";
    "RULE-SET,microsoft-cn,🪟 微软服务";
    "RULE-SET,apple-cn,🍎 苹果服务";
    "RULE-SET,google-cn,🇬 谷歌服务";
    "RULE-SET,games-cn,🎮 游戏服务";
    "RULE-SET,netflix,🎥 奈飞视频";
    "RULE-SET,disney,📽️ 迪士尼+";
    "RULE-SET,max,🎞️ Max";
    "RULE-SET,primevideo,🎬 Prime Video";
    "RULE-SET,appletv,🍎 Apple TV+";
    "RULE-SET,youtube,📹 油管视频";
    "RULE-SET,tiktok,🎵 TikTok";
    "RULE-SET,bilibili,📺 哔哩哔哩";
    "RULE-SET,spotify,🎶 Spotify";
    "RULE-SET,media,🌍 国外媒体";
    "RULE-SET,games,🎮 游戏平台";
    "RULE-SET,ai,🤖 AI 平台";
    "RULE-SET,networktest,📈 网络测试";
    "RULE-SET,tld-proxy,🧱 代理顶级域名";
    "RULE-SET,gfw,🧱 代理域名";
    "RULE-SET,cn,🛡️ 直连域名";
    "RULE-SET,privateip,🔒 私有网络,no-resolve";
    "RULE-SET,cnip,🀄️ 直连 IP";
    "RULE-SET,netflixip,🎥 奈飞视频";
    "RULE-SET,mediaip,🌍 国外媒体";
    "RULE-SET,gamesip,🎮 游戏平台";
    "RULE-SET,telegramip,📲 电报消息,no-resolve";
    "MATCH,🐟 漏网之鱼" ].


(** ** The module's rule array and the arrays made from it

    [baseRules] is the one module-level array the script copies and then
    changes, so arrays of rules live in a store and are named by reference:
    a run that changed [baseRules] itself would change every later run. *)
Definition Ref := nat.
Definition Heap := list (list string).

Definition deref (h : Heap) (r : Ref) : list string := nth r h [].

(** A new array object. *)
Definition alloc (h : Heap) (a : list string) : Ref * Heap :=
  (length h, h ++ [a]).

Fixpoint assign (h : Heap) (r : Ref) (a : list string) : Heap :=
  match h, r with
  | [], _ => []
  | _ :: rest, O => a :: rest
  | x :: rest, S r' => x :: assign rest r' a
  end.

(** [[...a]]: a new array with the elements of [a]. *)
Definition spread (h : Heap) (r : Ref) : Ref * Heap := alloc h (deref h r).

(** [a.unshift(x)], in place. *)
Definition unshift (h : Heap) (r : Ref) (x : string) : Heap :=
  assign h r (x :: deref h r).

(** Where [baseRules] lives, and the store when the module has loaded. *)
Definition baseRules : Ref := 0%nat.
Definition module_heap : Heap := [baseRules_entries].

Definition buildRules (quicEnabled : bool) (h : Heap) : Ref * Heap :=
  let '(ruleList, h) := spread h baseRules in
  let h := if negb quicEnabled
           then unshift h ruleList "AND,((DST-PORT,443),(NETWORK,UDP)),REJECT"
           else h in
  (ruleList, h).

Definition ports (l : list Z) : Value := VObj [("ports", VArr (map VNum l))].

Definition snifferConfig : Obj Value :=
  [ ("sniff", VObj [ ("TLS", ports [443; 8443]%Z);
                     ("HTTP", ports [80; 8080; 8880]%Z);
                     ("QUIC", ports [443; 8443]%Z) ]);
    ("override-destination", VBool false);
    ("enable", VBool true);
    ("force-dns-mapping", VBool true);
    ("skip-domain", names ["Mijia Cloud"; "dlg.io.mi.com"; "+.push.apple.com"]) ].

Definition buildDnsConfig (ipv6Enabled : bool) (mode : string)
                          (fakeIpFilter : option (list string)) : Obj Value :=
  let config :=
    [ ("enable", VBool true);
      ("ipv6", VBool ipv6Enabled);
      ("prefer-h3", VBool true);
      ("enhanced-mode", VStr mode);
      ("default-nameserver", names ["119.29.29.29"; "223.5.5.5"]);
      ("nameserver", names ["system"; "223.5.5.5"; "119.29.29.29"; "180.184.1.1"]);
      ("fallback", names [ "quic://dns0.eu";
                           "https://dns.cloudflare.com/dns-query";
                           "https://dns.sb/dns-query";
                           "tcp://208.67.222.222";
                           "tcp://8.26.56.2" ]);
      ("proxy-server-nameserver", names [ "https://dns.alidns.com/dns-query";
                                          "tls://dot.pub" ]) ] in
  match fakeIpFilter with
  | Some l => obj_set "fake-ip-filter" (names l) config
  | None => config
  end.

Definition dnsConfig (ipv6Enabled : bool) : Obj Value :=
  buildDnsConfig ipv6Enabled "redir-host" None.

Definition dnsConfigFakeIp (ipv6Enabled : bool) : Obj Value :=
  buildDnsConfig ipv6Enabled "fake-ip"
    (Some [ "geosite:private";
            "geosite:connectivity-check";
            "geosite:cn";
            "Mijia Cloud";
            "dig.io.mi.com";
            "localhost.ptlogin2.qq.com";
            "*.icloud.com";
            "*.stun.*.*";
            "*.stun.*.*.*" ]).

Definition geoxURL : Obj Value :=
  [ ("geoip", VStr "https://gcore.jsdelivr.net/gh/Loyalsoldier/v2ray-rules-dat@release/geoip.dat");
    ("geosite", VStr "https://gcore.jsdelivr.net/gh/Loyalsoldier/v2ray-rules-dat@release/geosite.dat");
    ("mmdb", VStr "https://gcore.jsdelivr.net/gh/Loyalsoldier/geoip@release/Country.mmdb");
    ("asn", VStr "https://gcore.jsdelivr.net/gh/Loyalsoldier/geoip@release/GeoLite2-ASN.mmdb") ].

(** ** Region catalog *)

Record RegionMeta : Type := mkRegionMeta {
  pattern : string;
  icon : string
}.

Definition countriesMeta : Obj RegionMeta :=
  [ ("香港",
     {| pattern := "香港|港|HK|hk|Hong Kong|HongKong|hongkong|🇭🇰";
        icon := "https://gcore.jsdelivr.net/gh/Koolson/Qure@master/IconSet/Color/Hong_Kong.png" |});
    ("澳门",
     {| pattern := "澳门|MO|Macau|🇲🇴";
        icon := "https://gcore.jsdelivr.net/gh/Koolson/Qure@master/IconSet/Color/Macao.png" |});
    ("台湾",
     {| pattern := "台|新北|彰化|TW|Taiwan|🇹🇼";
        icon := "https://gcore.jsdelivr.net/gh/Koolson/Qure@master/IconSet/Color/Taiwan.png" |});
    ("新加坡",
     {| pattern := "新加坡|坡|狮城|SG|Singapore|🇸🇬";
        icon := "https://gcore.jsdelivr.net/gh/Koolson/Qure@master/IconSet/Color/Singapore.png" |});
    ("日本",
     {| pattern := "日本|川日|东京|大阪|泉日|埼玉|沪日|深日|JP|Japan|🇯🇵";
        icon := "https://gcore.jsdelivr.net/gh/Koolson/Qure@master/IconSet/Color/Japan.png" |});
    ("韩国",
     {| pattern := "KR|Korea|KOR|首尔|韩|韓|🇰🇷";
        icon := "https://gcore.jsdelivr.net/gh/Koolson/Qure@master/IconSet/Color/Korea.png" |});
    ("美国",
     {| pattern := "美国|美|US|United States|🇺🇸";
        icon := "https://gcore.jsdelivr.net/gh/Koolson/Qure@master/IconSet/Color/United_States.png" |});
    ("加拿大",
     {| pattern := "加拿大|Canada|CA|🇨🇦";
        icon := "https://gcore.jsdelivr.net/gh/Koolson/Qure@master/IconSet/Color/Canada.png" |});
    ("英国",
     {| pattern := "英国|United Kingdom|UK|伦敦|London|🇬🇧";
        icon := "https://gcore.jsdelivr.net/gh/Koolson/Qure@master/IconSet/Color/United_Kingdom.png" |});
    ("澳大利亚",
     {| pattern := "澳洲|澳大利亚|AU|Australia|🇦🇺";
        icon := "https://gcore.jsdelivr.net/gh/Koolson/Qure@master/IconSet/Color/Australia.png" |});
    ("德国",
     {| pattern := "德国|德|DE|Germany|🇩🇪";
        icon := "https://gcore.jsdelivr.net/gh/Koolson/Qure@master/IconSet/Color/Germany.png" |});
    ("法国",
     {| pattern := "法国|法|FR|France|🇫🇷";
        icon := "https://gcore.jsdelivr.net/gh/Koolson/Qure@master/IconSet/Color/France.png" |});
    ("俄罗斯",
     {| pattern := "俄罗斯|俄|RU|Russia|🇷🇺";
        icon := "https://gcore.jsdelivr.net/gh/Koolson/Qure@master/IconSet/Color/Russia.png" |});
    ("泰国",
     {| pattern := "泰国|泰|TH|Thailand|🇹🇭";
        icon := "https://gcore.jsdelivr.net/gh/Koolson/Qure@master/IconSet/Color/Thailand.png" |});
    ("印度",
     {| pattern := "印度|IN|India|🇮🇳";
        icon := "https://gcore.jsdelivr.net/gh/Koolson/Qure@master/IconSet/Color/India.png" |});
    ("马来西亚",
     {| pattern := "马来西亚|马来|MY|Malaysia|🇲🇾";
        icon := "https://gcore.jsdelivr.net/gh/Koolson/Qure@master/IconSet/Color/Malaysia.png" |}) ].

(** What [countriesMeta[key]] finds: a region of the catalog, or a member
    that the plain object inherits from [Object.prototype], which is truthy
    and has neither [pattern] nor [icon]. *)
Inductive MetaLookup : Type :=
| Own (meta : RegionMeta)
| Inherited.

Definition Object_prototype_keys : list string :=
  [ "constructor"; "__defineGetter__"; "__defineSetter__"; "hasOwnProperty";
    "__lookupGetter__"; "__lookupSetter__"; "isPrototypeOf";
    "propertyIsEnumerable"; "toString"; "valueOf"; "__proto__"; "toLocaleString" ].

Definition countriesMeta_at (key : string) : option MetaLookup :=
  match obj_get key countriesMeta with
  | Some meta => Some (Own meta)
  | None => if existsb (String.eqb key) Object_prototype_keys
            then Some Inherited else None
  end.

Definition meta_pattern (m : MetaLookup) : Value :=
  match m with Own meta => VStr (pattern meta) | Inherited => VUndefined end.

Definition meta_icon (m : MetaLookup) : Value :=
  match m with Own meta => VStr (icon meta) | Inherited => VUndefined end.

(** ** Classification *)

(** A proxy descriptor: its [name], text or absent, and the other fields,
    which the script never reads. *)
Record Proxy : Type := mkProxy {
  name : option string;
  fields : Obj Value
}.

(** The input configuration, of which only [proxies] is read; [None] is an
    absent list. *)
Record Config : Type := mkConfig {
  proxies : option (list Proxy)
}.

(** [config.proxies || []]. *)
Definition proxies_or_empty (config : Config) : list Proxy :=
  match proxies config with
  | Some l => l
  | None => []
  end.

(** [/0\.[0-5]|低倍率|省流|大流量|实验性/i]. *)
Definition lowCostRegex : RegExp :=
  mkRegExp [ [Chr "0"; Chr "."; Class "0" "5"];
             literal "低倍率"; literal "省流"; literal "大流量"; literal "实验性" ]
           true.

(** [/家宽|家庭|家庭宽带|商宽|商业宽带|星链|Starlink|落地/i]. *)
Definition ispRegex : RegExp :=
  mkRegExp (map literal [ "家宽"; "家庭"; "家庭宽带"; "商宽"; "商业宽带";
                          "星链"; "Starlink"; "落地" ])
           true.

(** The text [test] sees for [proxy.name]: an absent name is coerced to the
    text 'undefined'. *)
Definition name_as_text (proxy : Proxy) : string :=
  match name proxy with
  | Some s => s
  | None => "undefined"
  end.

Definition hasLowCost (config : Config) : bool :=
  existsb (fun proxy => test lowCostRegex (name_as_text proxy))
          (proxies_or_empty config).

(** [proxy.name || '']. *)
Definition name_or_empty (proxy : Proxy) : string :=
  match name proxy with
  | Some s => s
  | None => ""
  end.

(** [countryCounts[country] = (countryCounts[country] || 0) + 1]. *)
Definition count_one (country : string) (countryCounts : Obj Z) : Obj Z :=
  let current := match obj_get country countryCounts with
                 | Some n => if Z.eqb n 0 then 0%Z else n
                 | None => 0%Z
                 end in
  obj_set country (current + 1)%Z countryCounts.

(** The inner loop: the first region whose pattern matches is counted and
    the loop is left. *)
Fixpoint count_first_match (compiledRegex : Obj RegExp) (name : string)
                           (countryCounts : Obj Z) : Obj Z :=
  match compiledRegex with
  | [] => countryCounts
  | (country, regex) :: rest =>
      if test regex name
      then count_one country countryCounts
      else count_first_match rest name countryCounts
  end.

Definition compiledRegex : Obj RegExp :=
  map (fun entry => let '(country, meta) := entry in
                    (country, new_RegExp (strip_inline_flag (pattern meta))))
      countriesMeta.

(** One round of the outer loop. *)
Definition count_proxy (countryCounts : Obj Z) (proxy : Proxy) : Obj Z :=
  let name := name_or_empty proxy in
  if test ispRegex name then countryCounts
  else count_first_match compiledRegex name countryCounts.

Definition parseCountries (config : Config) : list RegionCount :=
  let proxies := proxies_or_empty config in
  let countryCounts := fold_left count_proxy proxies [] in
  map (fun entry => let '(country, count) := entry in mkRegionCount country count)
      countryCounts.

(** ** Proxy groups *)

Definition buildCountryProxyGroups (countries : list string)
                                   (landing loadBalance : bool)
  : list (Obj Value) :=
  let baseExcludeFilter := "0\.[0-5]|低倍率|省流|大流量|实验性" in
  let landingExcludeFilter :=
    "(?i)家宽|家庭|家庭宽带|商宽|商业宽带|星链|Starlink|落地" in
  let groupType := if loadBalance then "load-balance" else "url-test" in
  flat_map
    (fun country =>
       match countriesMeta_at country with
       | None => []
       | Some meta =>
           let groupConfig :=
             [ ("name", VStr (country ++ NODE_SUFFIX));
               ("icon", meta_icon meta);
               ("include-all", VBool true);
               ("filter", meta_pattern meta);
               ("exclude-filter",
                VStr (if landing
                      then landingExcludeFilter ++ "|" ++ baseExcludeFilter
                      else baseExcludeFilter));
               ("type", VStr groupType) ] in
           [ if negb loadBalance
             then Object_assign groupConfig
                    [ ("url", VStr "https://cp.cloudflare.com/generate_204");
                      ("interval", VNum 60);
                      ("tolerance", VNum 20);
                      ("lazy", VBool false) ]
             else groupConfig ]
       end)
    countries.

(** [.filter(Boolean)] on an array of objects and [null]. *)
Definition without_null (l : list (option (Obj Value))) : list (Obj Value) :=
  flat_map (fun e => match e with Some g => [g] | None => [] end) l.

(** [countries.includes(c)]. *)
Definition includes (countries : list string) (c : string) : bool :=
  existsb (String.eqb c) countries.

Definition buildProxyGroups (landing : bool) (countries : list string)
                            (countryProxyGroups : list (Obj Value))
                            (lowCost : bool)
                            (defaultProxies defaultProxiesDirect
                             defaultSelector defaultFallback : list string)
  : list (Obj Value) :=
  let hasTW := includes countries "台湾" in
  let hasHK := includes countries "香港" in
  let hasUS := includes countries "美国" in
  let frontProxySelector :=
    if landing
    then filter (fun name => negb (String.eqb name PROXY_GROUPS.LANDING)
                             && negb (String.eqb name PROXY_GROUPS.FALLBACK))
                defaultSelector
    else [] in
  without_null
    ([
      Some [ ("name", VStr PROXY_GROUPS.SELECT);
             ("icon", VStr "https://gcore.jsdelivr.net/gh/Koolson/Qure@master/IconSet/Color/Proxy.png");
             ("type", VStr "select");
             ("proxies", names defaultSelector) ];
      Some [ ("name", VStr PROXY_GROUPS.MANUAL);
             ("icon", VStr "https://gcore.jsdelivr.net/gh/shindgewongxj/WHATSINStash@master/icon/select.png");
             ("include-all", VBool true);
             ("type", VStr "select") ];
      (if landing then
       Some [ ("name", VStr "前置代理");
             ("icon", VStr "https://gcore.jsdelivr.net/gh/Koolson/Qure@master/IconSet/Color/Area.png");
             ("type", VStr "select");
             ("include-all", VBool true);
             ("exclude-filter", VStr "(?i)家宽|家庭|家庭宽带|商宽|商业宽带|星链|Starlink|落地");
             ("proxies", names frontProxySelector) ]
       else None);
      (if landing then
       Some [ ("name", VStr PROXY_GROUPS.LANDING);
             ("icon", VStr "https://gcore.jsdelivr.net/gh/Koolson/Qure@master/IconSet/Color/Airport.png");
             ("type", VStr "select");
             ("include-all", VBool true);
             ("filter", VStr "(?i)家宽|家庭|家庭宽带|商宽|商业宽带|星链|Starlink|落地") ]
       else None);
      Some [ ("name", VStr PROXY_GROUPS.FALLBACK);
             ("icon", VStr "https://gcore.jsdelivr.net/gh/Koolson/Qure@master/IconSet/Color/Bypass.png");
             ("type", VStr "fallback");
             ("url", VStr "https://cp.cloudflare.com/generate_204");
             ("proxies", names defaultFallback);
             ("interval", VNum 180);
             ("tolerance", VNum 20);
             ("lazy", VBool false) ];
      Some [ ("name", VStr "🔒 私有网络");
             ("icon", VStr "https://gcore.jsdelivr.net/gh/Koolson/Qure@master/IconSet/Color/Private.png");
             ("type", VStr "select");
             ("proxies", names [PROXY_GROUPS.DIRECT]) ];
      Some [ ("name", VStr "🛑 广告域名");
             ("icon", VStr "https://gcore.jsdelivr.net/gh/Koolson/Qure@master/IconSet/Color/AdBlack.png");
             ("type", VStr "select");
             ("proxies", names ["REJECT"; "REJECT-DROP"; PROXY_GROUPS.DIRECT]) ];
      Some [ ("name", VStr "📋 Trackerslist");
             ("icon", VStr "https://gcore.jsdelivr.net/gh/Koolson/Qure@master/IconSet/Color/AdBlack.png");
             ("type", VStr "select");
             ("proxies", names ["REJECT"; "REJECT-DROP"; PROXY_GROUPS.DIRECT]) ];
      Some [ ("name", VStr "⬇️ 直连软件");
             ("icon", VStr "https://gcore.jsdelivr.net/gh/Koolson/Qure@master/IconSet/Color/Terminal.png");
             ("type", VStr "select");
             ("proxies", names [PROXY_GROUPS.DIRECT]) ];
      Some [ ("name", VStr "🪟 微软服务");
             ("icon", VStr "https://gcore.jsdelivr.net/gh/hazicy/override-rules@master/icons/Microsoft_Copilot.png");
             ("type", VStr "select");
             ("proxies", names defaultProxiesDirect) ];
      Some [ ("name", VStr "🍎 苹果服务");
             ("icon", VStr "https://gcore.jsdelivr.net/gh/Koolson/Qure@master/IconSet/Color/Apple.png");
             ("type", VStr "select");
             ("proxies", names defaultProxiesDirect) ];
      Some [ ("name", VStr "🇬 谷歌服务");
             ("icon", VStr "https://gcore.jsdelivr.net/gh/hazicy/override-rules@master/icons/Google.png");
             ("type", VStr "select");
             ("proxies", names defaultProxiesDirect) ];
      Some [ ("name", VStr "🎮 游戏服务");
             ("icon", VStr "https://gcore.jsdelivr.net/gh/Koolson/Qure@master/IconSet/Color/Game.png");
             ("type", VStr "select");
             ("proxies", names defaultProxiesDirect) ];
      Some [ ("name", VStr "🎥 奈飞视频");
             ("icon", VStr "https://gcore.jsdelivr.net/gh/Koolson/Qure@master/IconSet/Color/Netflix.png");
             ("type", VStr "select");
             ("proxies", names defaultProxies) ];
      Some [ ("name", VStr "📽️ 迪士尼+");
             ("icon", VStr "https://gcore.jsdelivr.net/gh/Koolson/Qure@master/IconSet/Color/Disney.png");
             ("type", VStr "select");
             ("proxies", names defaultProxies) ];
      Some [ ("name", VStr "🎞️ Max");
             ("icon", VStr "https://gcore.jsdelivr.net/gh/Koolson/Qure@master/IconSet/Color/HBO.png");
             ("type", VStr "select");
             ("proxies", names defaultProxies) ];
      Some [ ("name", VStr "🎬 Prime Video");
             ("icon", VStr "https://gcore.jsdelivr.net/gh/Koolson/Qure@master/IconSet/Color/Prime.png");
             ("type", VStr "select");
             ("proxies", names defaultProxies) ];
      Some [ ("name", VStr "🍎 Apple TV+");
             ("icon", VStr "https://gcore.jsdelivr.net/gh/Koolson/Qure@master/IconSet/Color/Apple.png");
             ("type", VStr "select");
             ("proxies", names defaultProxies) ];
      Some [ ("name", VStr "📹 油管视频");
             ("icon", VStr "https://gcore.jsdelivr.net/gh/Koolson/Qure@master/IconSet/Color/YouTube.png");
             ("type", VStr "select");
             ("proxies", names defaultProxies) ];
      Some [ ("name", VStr "🎵 TikTok");
             ("icon", VStr "https://gcore.jsdelivr.net/gh/Koolson/Qure@master/IconSet/Color/TikTok.png");
             ("type", VStr "select");
             ("proxies", names defaultProxies) ];
      Some [ ("name", VStr "📺 哔哩哔哩");
             ("icon", VStr "https://gcore.jsdelivr.net/gh/Koolson/Qure@master/IconSet/Color/bilibili.png");
             ("type", VStr "select");
             ("proxies", if hasTW && hasHK
                        then names [PROXY_GROUPS.DIRECT; "台湾节点"; "香港节点"]
                        else names defaultProxiesDirect) ];
      Some [ ("name", VStr "🎶 Spotify");
             ("icon", VStr "https://gcore.jsdelivr.net/gh/Koolson/Qure@master/IconSet/Color/Spotify.png");
             ("type", VStr "select");
             ("proxies", names defaultProxies) ];
      Some [ ("name", VStr "🌍 国外媒体");
             ("icon", VStr "https://gcore.jsdelivr.net/gh/Koolson/Qure@master/IconSet/Color/GlobalMedia.png");
             ("type", VStr "select");
             ("proxies", names defaultProxies) ];
      Some [ ("name", VStr "🎮 游戏平台");
             ("icon", VStr "https://gcore.jsdelivr.net/gh/Koolson/Qure@master/IconSet/Color/Game.png");
             ("type", VStr "select");
             ("proxies", names defaultProxies) ];
      Some [ ("name", VStr "🤖 AI 平台");
             ("icon", VStr "https://gcore.jsdelivr.net/gh/hazicy/override-rules@master/icons/ChatGPT.png");
             ("type", VStr "select");
             ("proxies", names defaultProxies) ];
      Some [ ("name", VStr "📈 网络测试");
             ("icon", VStr "https://gcore.jsdelivr.net/gh/Koolson/Qure@master/IconSet/Color/Speedtest.png");
             ("type", VStr "select");
             ("proxies", names defaultProxies) ];
      Some [ ("name", VStr "🧱 代理顶级域名");
             ("icon", VStr "https://gcore.jsdelivr.net/gh/Koolson/Qure@master/IconSet/Color/Proxy.png");
             ("type", VStr "select");
             ("proxies", names defaultProxies) ];
      Some [ ("name", VStr "🧱 代理域名");
             ("icon", VStr "https://gcore.jsdelivr.net/gh/Koolson/Qure@master/IconSet/Color/Proxy.png");
             ("type", VStr "select");
             ("proxies", names defaultProxies) ];
      Some [ ("name", VStr "🛡️ 直连域名");
             ("icon", VStr "https://gcore.jsdelivr.net/gh/Koolson/Qure@master/IconSet/Color/Direct.png");
             ("type", VStr "select");
             ("proxies", names [PROXY_GROUPS.DIRECT]) ];
      Some [ ("name", VStr "🀄️ 直连 IP");
             ("icon", VStr "https://gcore.jsdelivr.net/gh/Koolson/Qure@master/IconSet/Color/Direct.png");
             ("type", VStr "select");
             ("proxies", names [PROXY_GROUPS.DIRECT]) ];
      Some [ ("name", VStr "📲 电报消息");
             ("icon", VStr "https://gcore.jsdelivr.net/gh/Koolson/Qure@master/IconSet/Color/Telegram.png");
             ("type", VStr "select");
             ("proxies", names defaultProxies) ];
      Some [ ("name", VStr PROXY_GROUPS.DIRECT);
             ("icon", VStr "https://gcore.jsdelivr.net/gh/Koolson/Qure@master/IconSet/Color/Direct.png");
             ("type", VStr "select");
             ("proxies", names ["DIRECT"; PROXY_GROUPS.SELECT]) ];
      Some [ ("name", VStr "🐟 漏网之鱼");
             ("icon", VStr "https://gcore.jsdelivr.net/gh/Koolson/Qure@master/IconSet/Color/Final.png");
             ("type", VStr "select");
             ("proxies", names defaultProxies) ];
      (if lowCost then
       Some [ ("name", VStr PROXY_GROUPS.LOW_COST);
             ("icon", VStr "https://gcore.jsdelivr.net/gh/Koolson/Qure@master/IconSet/Color/Lab.png");
             ("type", VStr "url-test");
             ("url", VStr "https://cp.cloudflare.com/generate_204");
             ("include-all", VBool true);
             ("filter", VStr "(?i)0\.[0-5]|低倍率|省流|大流量|实验性") ]
       else None) ]
     ++ map Some countryProxyGroups).

(** ** The entry point *)

(** The configuration [main] returns: [proxies] as received, and the keys
    that the two [Object.assign] calls add, in order. *)
Record ResultConfig : Type := mkResultConfig {
  result_proxies : option (list Proxy);
  assigned : Obj Value
}.

Definition main (flags : Flags) (config : Config) (h : Heap)
  : ResultConfig * Heap :=
  let resultConfig := mkConfig (proxies config) in
  let countryInfo := parseCountries resultConfig in
  let lowCost := hasLowCost resultConfig in
  let countryGroupNames :=
    getCountryGroupNames countryInfo (countryThreshold flags) in
  let countries := stripNodeSuffix countryGroupNames in
  let lists := buildBaseLists (landing flags) lowCost countryGroupNames in
  let countryProxyGroups :=
    buildCountryProxyGroups countries (landing flags) (loadBalance flags) in
  let proxyGroups :=
    buildProxyGroups (landing flags) countries countryProxyGroups lowCost
                     (defaultProxies lists) (defaultProxiesDirect lists)
                     (defaultSelector lists) (defaultFallback lists) in
  let globalProxies := map (fun item => prop item "name") proxyGroups in
  let proxyGroups :=
    proxyGroups
    ++ [ [ ("name", VStr "GLOBAL");
           ("icon", VStr "https://gcore.jsdelivr.net/gh/Koolson/Qure@master/IconSet/Color/Global.png");
           ("include-all", VBool true);
           ("type", VStr "select");
           ("proxies", VArr globalProxies) ] ] in
  let '(finalRules, h) := buildRules (quicEnabled flags) h in
  let assigned :=
    if fullConfig flags
    then Object_assign []
           [ ("mixed-port", VNum 7890);
             ("redir-port", VNum 7892);
             ("tproxy-port", VNum 7893);
             ("routing-mark", VNum 7894);
             ("allow-lan", VBool true);
             ("ipv6", VBool (ipv6Enabled flags));
             ("mode", VStr "rule");
             ("unified-delay", VBool true);
             ("tcp-concurrent", VBool true);
             ("find-process-mode", VStr "off");
             ("log-level", VStr "info");
             ("geodata-loader", VStr "standard");
             ("external-controller", VStr ":9999");
             ("disable-keep-alive", VBool (negb (keepAliveEnabled flags)));
             ("profile", VObj [ ("store-selected", VBool true) ]) ]
    else [] in
  let assigned :=
    Object_assign assigned
      [ ("proxy-groups", VArr (map VObj proxyGroups));
        ("rule-providers", VObj ruleProviders);
        ("rules", names (deref h finalRules));
        ("sniffer", VObj snifferConfig);
        ("dns", VObj (if fakeIPEnabled flags
                      then dnsConfigFakeIp (ipv6Enabled flags)
                      else dnsConfig (ipv6Enabled flags)));
        ("geodata-mode", VBool true);
        ("geox-url", VObj geoxURL) ] in
  (mkResultConfig (proxies config) assigned, h).

(** The script as loaded and called: the flags are read once from the
    arguments, then [main] runs. *)
Definition convert (parseInt10 : Value -> option Z) (args : Args)
                   (config : Config) (h : Heap) : ResultConfig * Heap :=
  main (buildFeatureFlags parseInt10 args) config h.

(** Successive calls of [main] in one loaded module: each starts from the
    store the previous one left. *)
Fixpoint runs (n : nat) (flags : Flags) (config : Config) (h : Heap)
  : list ResultConfig * Heap :=
  match n with
  | O => ([], h)
  | S n' =>
      let '(out, h) := main flags config h in
      let '(outs, h) := runs n' flags config h in
      (out :: outs, h)
  end.

(** ** Reading the emitted configuration *)

Definition objects (v : Value) : list (Obj Value) :=
  match v with
  | VArr items => flat_map (fun x => match x with VObj o => [o] | _ => [] end) items
  | _ => []
  end.

Definition texts (v : Value) : list string :=
  match v with
  | VArr items => flat_map (fun x => match x with VStr s => [s] | _ => [] end) items
  | _ => []
  end.

(** The emitted [proxy-groups] and [rules]. *)
Definition proxy_groups (r : ResultConfig) : list (Obj Value) :=
  objects (prop (assigned r) "proxy-groups").

Definition rules (r : ResultConfig) : list string :=
  texts (prop (assigned r) "rules").

(** ** Vocabulary of the statements *)

(** The name of a group, when it is text. *)
Definition group_name (g : Obj Value) : option string :=
  match obj_get "name" g with
  | Some (VStr s) => Some s
  | _ => None
  end.

(** The capital of an ASCII letter. *)
Definition upper_ascii (c : ascii) : ascii :=
  let n := nat_of_ascii c in
  if (97 <=? n)%nat && (n <=? 122)%nat then ascii_of_nat (n - 32) else c.

(** [s] is the lower-case [word] written with each letter in either case. *)
Fixpoint in_any_case (word s : string) : Prop :=
  match word, s with
  | EmptyString, EmptyString => True
  | String w word', String c s' => (c = w \/ c = upper_ascii w) /\ in_any_case word' s'
  | _, _ => False
  end.

(** The region a name is classified under, in the words of the design: the
    first region in catalog order whose pattern matches, for a name that
    does not match the exclusion pattern. *)
Definition region_matches (name : string) (entry : string * RegionMeta) : bool :=
  test (new_RegExp (pattern (snd entry))) name.

Definition first_region (name : string) : option string :=
  option_map fst (find (region_matches name) countriesMeta).

Definition classify (proxy : Proxy) : option string :=
  let name := name_or_empty proxy in
  if test ispRegex name then None else first_region name.

Definition classified_as (c : string) (proxy : Proxy) : bool :=
  match classify proxy with
  | Some c' => String.eqb c' c
  | None => false
  end.

(** How many proxies of the list are classified under [c]. *)
Definition tally (c : string) (l : list Proxy) : Z :=
  Z.of_nat (length (filter (classified_as c) l)).

(** The counts object keeps distinct keys and only positive counts. *)
Definition counts_ok (countryCounts : Obj Z) : Prop :=
  NoDup (obj_keys countryCounts)
  /\ Forall (fun entry => (0 < snd entry)%Z) countryCounts.

(** The count recorded for a region; a region without a record counts 0. *)
Definition count_of (c : string) (countryCounts : Obj Z) : Z :=
  match obj_get c countryCounts with
  | Some n => n
  | None => 0%Z
  end.

(** The intermediate values of [main], by the names of its locals. *)
Definition countryGroupNames_of (flags : Flags) (config : Config) : list string :=
  getCountryGroupNames (parseCountries config) (countryThreshold flags).

Definition countries_of (flags : Flags) (config : Config) : list string :=
  stripNodeSuffix (countryGroupNames_of flags config).

Definition lists_of (flags : Flags) (config : Config) : BaseLists :=
  buildBaseLists (landing flags) (hasLowCost config) (countryGroupNames_of flags config).

Definition countryProxyGroups_of (flags : Flags) (config : Config)
  : list (Obj Value) :=
  buildCountryProxyGroups (countries_of flags config) (landing flags) (loadBalance flags).

(** The groups [buildProxyGroups] returns to [main], before [GLOBAL] is
    pushed. *)
Definition built_groups (flags : Flags) (config : Config) : list (Obj Value) :=
  let lists := lists_of flags config in
  buildProxyGroups (landing flags) (countries_of flags config)
                   (countryProxyGroups_of flags config) (hasLowCost config)
                   (defaultProxies lists) (defaultProxiesDirect lists)
                   (defaultSelector lists) (defaultFallback lists).

(** The names of the groups that [buildProxyGroups] writes out itself, in
    order. *)
Definition hub_names (landing lowCost : bool) : list string :=
  [ PROXY_GROUPS.SELECT; PROXY_GROUPS.MANUAL ]
  ++ (if landing then [ "前置代理"; PROXY_GROUPS.LANDING ] else [])
  ++ [ PROXY_GROUPS.FALLBACK;
       "🔒 私有网络"; "🛑 广告域名"; "📋 Trackerslist"; "⬇️ 直连软件";
       "🪟 微软服务"; "🍎 苹果服务"; "🇬 谷歌服务"; "🎮 游戏服务";
       "🎥 奈飞视频"; "📽️ 迪士尼+"; "🎞️ Max"; "🎬 Prime Video";
       "🍎 Apple TV+"; "📹 油管视频"; "🎵 TikTok"; "📺 哔哩哔哩";
       "🎶 Spotify"; "🌍 国外媒体"; "🎮 游戏平台"; "🤖 AI 平台";
       "📈 网络测试"; "🧱 代理顶级域名"; "🧱 代理域名"; "🛡️ 直连域名";
       "🀄️ 直连 IP"; "📲 电报消息"; PROXY_GROUPS.DIRECT; "🐟 漏网之鱼" ]
  ++ (if lowCost then [ PROXY_GROUPS.LOW_COST ] else []).

(** The store still holds the rules [baseRules] was loaded with. *)
Definition intact (h : Heap) : Prop :=
  nth_error h baseRules = Some baseRules_entries.

(** A rule of the form [MATCH,target]. *)
Definition is_catch_all (rule : string) : bool := String.prefix "MATCH," rule.

Definition QUIC_BLOCK : string := "AND,((DST-PORT,443),(NETWORK,UDP)),REJECT".

(** Inputs for concrete runs. *)
Definition proxy_named (s : string) : Proxy := mkProxy (Some s) [].

Definition default_flags : Flags :=
  mkFlags false false false false false false false 0.

Definition scenario : Config :=
  mkConfig (Some [ proxy_named "HK-01 香港";
                   proxy_named "US-01 美国";
                   proxy_named "US-02 低倍率 美国" ]).

(** ** Vocabulary of the further properties *)

(** [k] occurs in [s]. *)
Definition occurs_in (k s : string) : Prop :=
  exists pre post, s = (pre ++ k ++ post)%string.

(** The sum of the reported counts. *)
Definition total_count (countryInfo : list RegionCount) : Z :=
  fold_right Z.add 0%Z (map count countryInfo).

(** A proxy whose name is a non-empty text. *)
Definition has_name (proxy : Proxy) : bool :=
  match name proxy with
  | Some (String _ _) => true
  | _ => false
  end.

(** A proxy that is classified under some region. *)
Definition is_classified (proxy : Proxy) : bool :=
  match classify proxy with
  | Some _ => true
  | None => false
  end.

(** A byte that is not an ASCII letter. *)
Definition not_letter (c : ascii) : bool :=
  let n := nat_of_ascii c in
  negb ((65 <=? n)%nat && (n <=? 90)%nat) && negb ((97 <=? n)%nat && (n <=? 122)%nat).

(** The keywords of the low-cost pattern, and the digits its class allows
    after [0.]. *)
Definition low_cost_keywords : list string := [ "低倍率"; "省流"; "大流量"; "实验性" ].

Definition digits_0_to_5 : list ascii := [ "0"; "1"; "2"; "3"; "4"; "5" ]%char.

(** What [buildList] keeps of one argument. *)
Definition kept (e : ListElement) : list string :=
  match e with
  | EName s => if String.eqb s "" then [] else [s]
  | EFalse => []
  | ENames l => filter (fun s => negb (String.eqb s "")) l
  end.

(** The members a group lists under [proxies]; none when it has no list. *)
Definition group_members (g : Obj Value) : list string :=
  texts (prop g "proxies").

(** The policies of the routing client that are not groups. *)
Definition builtin_policies : list string := [ "DIRECT"; "REJECT"; "REJECT-DROP" ].

(** The groups that serve one kind of traffic each. *)
Definition service_names : list string :=
  [ "🔒 私有网络"; "🛑 广告域名"; "📋 Trackerslist"; "⬇️ 直连软件";
    "🪟 微软服务"; "🍎 苹果服务"; "🇬 谷歌服务"; "🎮 游戏服务";
    "🎥 奈飞视频"; "📽️ 迪士尼+"; "🎞️ Max"; "🎬 Prime Video";
    "🍎 Apple TV+"; "📹 油管视频"; "🎵 TikTok"; "📺 哔哩哔哩";
    "🎶 Spotify"; "🌍 国外媒体"; "🎮 游戏平台"; "🤖 AI 平台";
    "📈 网络测试"; "🧱 代理顶级域名"; "🧱 代理域名"; "🛡️ 直连域名";
    "🀄️ 直连 IP"; "📲 电报消息"; "🐟 漏网之鱼" ].

(** [a] lists [b] as a member, among the groups [groups]. *)
Definition refers (groups : list (Obj Value)) (a b : string) : Prop :=
  exists g, In g groups /\ group_name g = Some a /\ In b (group_members g).

(** [b] is reached from [a] through one or more member lists. *)
Inductive reaches (groups : list (Obj Value)) : string -> string -> Prop :=
| reaches_member (a b : string) :
    refers groups a b -> reaches groups a b
| reaches_through (a b c : string) :
    refers groups a b -> reaches groups b c -> reaches groups a c.

(** A height of the names in the reference graph: a group only lists names
    of smaller height. *)
Definition rank (s : string) : nat :=
  if String.eqb s "GLOBAL" then 5
  else if existsb (String.eqb s) service_names then 4
  else if String.eqb s PROXY_GROUPS.DIRECT then 3
  else if String.eqb s PROXY_GROUPS.SELECT then 2
  else if String.eqb s PROXY_GROUPS.FALLBACK || String.eqb s "前置代理" then 1
  else 0.

(** No text occurs twice in the list. *)
Fixpoint distinct (l : list string) : bool :=
  match l with
  | [] => true
  | x :: rest => negb (existsb (String.eqb x) rest) && distinct rest
  end.

(** A base rule is [MATCH,target] or [RULE-SET,provider,target] with an
    optional [,no-resolve], for a declared provider and a service group. *)
Definition rule_shape_ok (rule : string) : bool :=
  existsb (fun t => String.eqb rule ("MATCH," ++ t)) service_names
  || existsb
       (fun p =>
          existsb
            (fun t =>
               existsb (fun opt => String.eqb rule ("RULE-SET," ++ p ++ "," ++ t ++ opt))
                       [ ""; ",no-resolve" ])
            service_names)
       (obj_keys ruleProviders).

(** The keys [main] adds when the full configuration is asked for, and the
    keys it always adds. *)
Definition full_keys : list string :=
  [ "mixed-port"; "redir-port"; "tproxy-port"; "routing-mark"; "allow-lan";
    "ipv6"; "mode"; "unified-delay"; "tcp-concurrent"; "find-process-mode";
    "log-level"; "geodata-loader"; "external-controller"; "disable-keep-alive";
    "profile" ].

Definition injected_keys : list string :=
  [ "proxy-groups"; "rule-providers"; "rules"; "sniffer"; "dns"; "geodata-mode";
    "geox-url" ].

(** * Properties *)

(** ** Concrete runs *)

Example scenario_counts :
  parseCountries scenario = [ mkRegionCount "香港" 1; mkRegionCount "美国" 2 ]
  /\ hasLowCost scenario = true.
Proof. split; reflexivity. Qed.

Example scenario_pools :
  map group_name (countryProxyGroups_of default_flags scenario)
  = [ Some "香港节点"; Some "美国节点" ]
  /\ map (fun g => prop g "type") (countryProxyGroups_of default_flags scenario)
     = [ VStr "url-test"; VStr "url-test" ]
  /\ defaultProxies (lists_of default_flags scenario)
     = [ "选择代理"; "香港节点"; "美国节点"; "低倍率节点"; "手动选择"; "直连" ].
Proof. repeat split; reflexivity. Qed.

Example scenario_threshold_2 :
  let flags := mkFlags false false false false false false false 2 in
  countryGroupNames_of flags scenario = [ "美国节点" ]
  /\ map group_name (countryProxyGroups_of flags scenario) = [ Some "美国节点" ].
Proof. split; reflexivity. Qed.

Example first_match_is_catalog_order :
  first_region "HK-US relay" = Some "香港"
  /\ parseCountries (mkConfig (Some [ proxy_named "HK-US relay" ]))
     = [ mkRegionCount "香港" 1 ].
Proof. split; reflexivity. Qed.

Example region_patterns_are_case_sensitive :
  first_region "node-de-01" = None /\ first_region "node-DE-01" = Some "德国".
Proof. split; reflexivity. Qed.

Example counts_follow_first_appearance :
  parseCountries (mkConfig (Some [ proxy_named "US 1"; proxy_named "HK 1";
                                   proxy_named "US 2" ]))
  = [ mkRegionCount "美国" 2; mkRegionCount "香港" 1 ].
Proof. reflexivity. Qed.

Example flags_from_arguments :
  let args := [ ("landing", VStr "TRUE"); ("quic", VStr "1");
                ("full", VNum 1); ("ipv6", VStr "yes"); ("fakeip", VBool true) ] in
  let flags := buildFeatureFlags (fun _ => None) args in
  (loadBalance flags, landing flags, ipv6Enabled flags, fullConfig flags,
   keepAliveEnabled flags, fakeIPEnabled flags, quicEnabled flags,
   countryThreshold flags)
  = (false, true, false, false, false, true, true, 0%Z).
Proof. reflexivity. Qed.

Example second_run_starts_from_a_larger_store :
  length (snd (main default_flags scenario module_heap)) = 2%nat
  /\ deref (snd (main default_flags scenario module_heap)) baseRules
     = baseRules_entries.
Proof. split; reflexivity. Qed.

(** ** Objects *)

Section ObjectFacts.
Variable V : Type.
Implicit Types (o : Obj V) (k : string) (v : V).

Lemma obj_get_set_same k v o : obj_get k (obj_set k v o) = Some v.
Proof.
  induction o as [|[k' v'] rest IH]; simpl.
  - now rewrite String.eqb_refl.
  - destruct (String.eqb k k') eqn:E; simpl; rewrite E; auto.
Qed.

Lemma obj_get_set_other k k' v o :
  k <> k' -> obj_get k' (obj_set k v o) = obj_get k' o.
Proof.
  intros Hne. induction o as [|[k0 v0] rest IH]; simpl.
  - destruct (String.eqb_spec k' k); congruence.
  - destruct (String.eqb_spec k k0) as [->|Hk]; simpl.
    + destruct (String.eqb_spec k' k0); congruence.
    + now rewrite IH.
Qed.

Lemma obj_get_None_keys k o : obj_get k o = None <-> ~ In k (obj_keys o).
Proof.
  induction o as [|[k' v'] rest IH]; simpl.
  - tauto.
  - destruct (String.eqb_spec k k') as [->|Hk].
    + split; [discriminate | tauto].
    + rewrite IH. split; [intros H [E|I]; [congruence | tauto] | tauto].
Qed.

Lemma obj_keys_set k v o :
  obj_keys (obj_set k v o)
  = match obj_get k o with
    | Some _ => obj_keys o
    | None => obj_keys o ++ [k]
    end.
Proof.
  induction o as [|[k' v'] rest IH]; simpl.
  - reflexivity.
  - destruct (String.eqb_spec k k') as [->|Hk]; simpl.
    + reflexivity.
    + rewrite IH. now destruct (obj_get k rest).
Qed.

Lemma obj_set_NoDup k v o : NoDup (obj_keys o) -> NoDup (obj_keys (obj_set k v o)).
Proof.
  intros Hnd. rewrite obj_keys_set.
  destruct (obj_get k o) eqn:E; auto.
  apply obj_get_None_keys in E.
  apply NoDup_app; auto.
  - constructor; [intros [] | constructor].
  - intros x Hx [<-|[]]. contradiction.
Qed.

Lemma obj_get_In k v o : obj_get k o = Some v -> In (k, v) o.
Proof.
  induction o as [|[k' v'] rest IH]; simpl; [discriminate|].
  destruct (String.eqb_spec k k') as [->|Hk].
  - intros [= ->]. now left.
  - intros H. right. auto.
Qed.

Lemma In_obj_get k v o : NoDup (obj_keys o) -> In (k, v) o -> obj_get k o = Some v.
Proof.
  induction o as [|[k' v'] rest IH]; simpl; [tauto|].
  intros Hnd [E|I].
  - injection E as -> ->. now rewrite String.eqb_refl.
  - inversion Hnd as [|? ? Hnot Hnd']; subst.
    destruct (String.eqb_spec k k') as [->|Hk].
    + exfalso. apply Hnot. change (In (fst (k', v)) (map fst rest)). now apply in_map.
    + auto.
Qed.
End ObjectFacts.

(** ** Text *)

Lemma length_append (a b : string) :
  String.length (a ++ b) = (String.length a + String.length b)%nat.
Proof. induction a as [|c a IH]; simpl; congruence. Qed.

Lemma append_length_gt (c : ascii) (s suffix : string) :
  String c (s ++ suffix) <> suffix.
Proof.
  intros H. apply (f_equal String.length) in H. simpl in H.
  rewrite length_append in H. lia.
Qed.

Lemma match_at_end_append (suffix stem : string) :
  match_at_end suffix (stem ++ suffix) = Some stem.
Proof.
  induction stem as [|c stem IH]; cbn [String.append match_at_end].
  - destruct suffix; cbn [match_at_end]; now rewrite String.eqb_refl.
  - destruct (String.eqb_spec (String c (stem ++ suffix)) suffix) as [E|_].
    + now apply append_length_gt in E.
    + now rewrite IH.
Qed.

Lemma stripNodeSuffix_names (stems : list string) :
  stripNodeSuffix (map (fun c => (c ++ NODE_SUFFIX)%string) stems) = stems.
Proof.
  unfold stripNodeSuffix. rewrite map_map.
  rewrite <- (map_id stems) at 2. apply map_ext. intros c.
  now rewrite match_at_end_append.
Qed.

Lemma append_suffix_inj (suffix a b : string) :
  (a ++ suffix = b ++ suffix)%string -> a = b.
Proof.
  intros H.
  assert (E : match_at_end suffix (a ++ suffix) = match_at_end suffix (b ++ suffix))
    by now rewrite H.
  rewrite !match_at_end_append in E. congruence.
Qed.

Lemma lower_ascii_true_letters (c w : ascii) :
  In w (list_ascii_of_string "true") ->
  lower_ascii c = w <-> (c = w \/ c = upper_ascii w).
Proof.
  intros Hw. simpl in Hw.
  destruct Hw as [<-|[<-|[<-|[<-|[]]]]];
    destruct c as [[] [] [] [] [] [] [] []]; vm_compute;
    (split; [intros H; first [left; reflexivity | right; reflexivity | discriminate H]
            | intros [H|H]; first [reflexivity | discriminate H]]).
Qed.

Lemma toLowerCase_true (s : string) :
  toLowerCase s = "true" <-> in_any_case "true" s.
Proof.
  destruct s as [|a [|b [|c [|d [|e s]]]]]; cbn [toLowerCase in_any_case];
    try (split; [discriminate | tauto]).
  rewrite <- !lower_ascii_true_letters by (simpl; tauto).
  split.
  - intros [= -> -> -> ->]. tauto.
  - intros (-> & -> & -> & -> & _). reflexivity.
Qed.

(** ** Flags *)

(** C10. A flag value that is neither a boolean nor text, such as the
    number 1, parses to false and leaves the feature disabled; a value
    parses to true only when it is the boolean true, the text 'true' in any
    letter case, or the text '1'.  Each feature flag is [parseBool] of the
    argument of its name. *)
Theorem parseBool_enabled_only_by_true :
  (forall value,
      parseBool value = true <->
      value = VBool true
      \/ exists s, value = VStr s /\ (in_any_case "true" s \/ s = "1"))
  /\ parseBool (VNum 1) = false
  /\ (forall value,
         match value with
         | VBool _ | VStr _ => True
         | _ => parseBool value = false
         end)
  /\ (forall parseInt10 args,
         let flags := buildFeatureFlags parseInt10 args in
         loadBalance flags = parseBool (arg args "loadbalance")
         /\ landing flags = parseBool (arg args "landing")
         /\ ipv6Enabled flags = parseBool (arg args "ipv6")
         /\ fullConfig flags = parseBool (arg args "full")
         /\ keepAliveEnabled flags = parseBool (arg args "keepalive")
         /\ fakeIPEnabled flags = parseBool (arg args "fakeip")
         /\ quicEnabled flags = parseBool (arg args "quic")).
Proof.
  split; [|split; [reflexivity|split]].
  - intros value. destruct value; cbn [parseBool];
      try (split; [discriminate | intros [H | (s0 & H & _)]; discriminate H]).
    + split; [intros ->; now left | intros [[= ->] | (s0 & H & _)]; [reflexivity | discriminate H]].
    + rewrite orb_true_iff, String.eqb_eq, String.eqb_eq, toLowerCase_true.
      split.
      * intros H. right. now exists s.
      * intros [H | (s0 & [= <-] & H)]; [discriminate H | exact H].
  - intros value. now destruct value.
  - intros parseInt10 args flags. subst flags.
    unfold buildFeatureFlags, flags_object, flag_spec, flag_of.
    cbn [fold_left obj_set obj_get String.eqb Ascii.eqb Bool.eqb
         loadBalance landing ipv6Enabled fullConfig keepAliveEnabled
         fakeIPEnabled quicEnabled].
    rewrite !orb_false_r. repeat split.
Qed.

(** ** Threshold *)

(** C7. Raising the threshold never adds a region group name: for
    thresholds [t1 <= t2], every name selected with [t2] is selected with
    [t1]. *)
Theorem getCountryGroupNames_antitone
        (countryInfo : list RegionCount) (t1 t2 : Z) :
  (t1 <= t2)%Z ->
  incl (getCountryGroupNames countryInfo t2) (getCountryGroupNames countryInfo t1).
Proof.
  intros Hle name. unfold getCountryGroupNames.
  rewrite !in_map_iff. intros (item & Hname & Hin).
  exists item. split; [exact Hname|].
  apply filter_In in Hin as [Hin Hge]. apply filter_In. split; [exact Hin|].
  apply Z.geb_le in Hge. apply Z.geb_le. lia.
Qed.

Lemma getCountryGroupNames_antitone_witness :
  (0 <= 2)%Z
  /\ incl (getCountryGroupNames (parseCountries scenario) 2)
          (getCountryGroupNames (parseCountries scenario) 0).
Proof.
  split; [lia | apply (@getCountryGroupNames_antitone (parseCountries scenario) 0 2); lia].
Defined.

(** ** Classification *)

Lemma compiledRegex_catalog :
  compiledRegex
  = map (fun entry => (fst entry, new_RegExp (pattern (snd entry)))) countriesMeta.
Proof. reflexivity. Qed.

Lemma catalog_patterns_plain :
  forallb (fun entry => plain_pattern (pattern (snd entry))) countriesMeta = true.
Proof. reflexivity. Qed.

Lemma catalog_keys_NoDup : NoDup (obj_keys countriesMeta).
Proof.
  unfold obj_keys. simpl.
  repeat (constructor; [simpl; intros H; repeat (destruct H as [H|H]; [discriminate H|]); exact H|]).
  constructor.
Qed.

Lemma count_of_count_one (c c' : string) (countryCounts : Obj Z) :
  count_of c (count_one c' countryCounts)
  = (count_of c countryCounts + if String.eqb c' c then 1 else 0)%Z.
Proof.
  unfold count_one.
  assert (E : match obj_get c' countryCounts with
              | Some n => if (n =? 0)%Z then 0%Z else n
              | None => 0%Z
              end = count_of c' countryCounts).
  { unfold count_of. destruct (obj_get c' countryCounts) as [n|]; [|reflexivity].
    destruct (Z.eqb_spec n 0); congruence. }
  rewrite E. unfold count_of at 1.
  destruct (String.eqb_spec c' c) as [->|Hne].
  - now rewrite obj_get_set_same.
  - rewrite obj_get_set_other by exact Hne. fold (count_of c countryCounts). lia.
Qed.

Lemma count_first_match_find (catalog : Obj RegionMeta) (name : string)
      (countryCounts : Obj Z) :
  count_first_match
    (map (fun entry => (fst entry, new_RegExp (pattern (snd entry)))) catalog)
    name countryCounts
  = match find (region_matches name) catalog with
    | Some entry => count_one (fst entry) countryCounts
    | None => countryCounts
    end.
Proof.
  induction catalog as [|[country meta] rest IH]; simpl; [reflexivity|].
  unfold region_matches at 1. simpl.
  destruct (test (new_RegExp (pattern meta)) name); [reflexivity | exact IH].
Qed.

Lemma count_proxy_classify (countryCounts : Obj Z) (proxy : Proxy) :
  count_proxy countryCounts proxy
  = match classify proxy with
    | Some c => count_one c countryCounts
    | None => countryCounts
    end.
Proof.
  unfold count_proxy, classify, first_region.
  destruct (test ispRegex (name_or_empty proxy)); [reflexivity|].
  rewrite compiledRegex_catalog, count_first_match_find.
  now destruct (find (region_matches (name_or_empty proxy)) countriesMeta).
Qed.

Lemma count_of_count_proxy (c : string) (countryCounts : Obj Z) (proxy : Proxy) :
  count_of c (count_proxy countryCounts proxy)
  = (count_of c countryCounts + if classified_as c proxy then 1 else 0)%Z.
Proof.
  rewrite count_proxy_classify. unfold classified_as.
  destruct (classify proxy) as [c'|]; [apply count_of_count_one | lia].
Qed.

Lemma count_of_fold (c : string) (l : list Proxy) (countryCounts : Obj Z) :
  count_of c (fold_left count_proxy l countryCounts)
  = (count_of c countryCounts + tally c l)%Z.
Proof.
  revert countryCounts. unfold tally.
  induction l as [|proxy l IH]; intros countryCounts; simpl; [lia|].
  rewrite IH, count_of_count_proxy.
  destruct (classified_as c proxy); simpl length; lia.
Qed.

Lemma obj_set_Forall (P : string * Z -> Prop) (k : string) (v : Z) (o : Obj Z) :
  (forall k', P (k', v)) -> Forall P o -> Forall P (obj_set k v o).
Proof.
  intros Hv. induction 1 as [|[k0 v0] rest H0 Hrest IH]; simpl.
  - constructor; [apply Hv | constructor].
  - destruct (String.eqb k k0); constructor; auto.
Qed.

Lemma count_of_nonneg (c : string) (countryCounts : Obj Z) :
  counts_ok countryCounts -> (0 <= count_of c countryCounts)%Z.
Proof.
  intros [_ Hpos]. unfold count_of.
  destruct (obj_get c countryCounts) as [n|] eqn:E; [|lia].
  apply obj_get_In in E. rewrite Forall_forall in Hpos.
  specialize (Hpos _ E). simpl in Hpos. lia.
Qed.

Lemma count_one_ok (c : string) (countryCounts : Obj Z) :
  counts_ok countryCounts -> counts_ok (count_one c countryCounts).
Proof.
  intros Hok. pose proof (count_of_nonneg c Hok) as Hc. destruct Hok as [Hnd Hpos].
  unfold count_one. split.
  - now apply obj_set_NoDup.
  - apply obj_set_Forall; [|exact Hpos].
    intros k'. simpl. unfold count_of in Hc.
    destruct (obj_get c countryCounts) as [n|]; [destruct (Z.eqb_spec n 0)|]; lia.
Qed.

Lemma count_proxy_ok (countryCounts : Obj Z) (proxy : Proxy) :
  counts_ok countryCounts -> counts_ok (count_proxy countryCounts proxy).
Proof.
  intros Hok. rewrite count_proxy_classify.
  destruct (classify proxy); [now apply count_one_ok | exact Hok].
Qed.

Lemma fold_count_proxy_ok (l : list Proxy) (countryCounts : Obj Z) :
  counts_ok countryCounts -> counts_ok (fold_left count_proxy l countryCounts).
Proof.
  revert countryCounts.
  induction l as [|proxy l IH]; intros countryCounts Hok; simpl; [exact Hok|].
  apply IH. now apply count_proxy_ok.
Qed.

Lemma counts_ok_empty : counts_ok [].
Proof. split; constructor. Qed.

(** The reported list has an entry for a region exactly when some proxy is
    classified under it, and the entry carries the tally. *)
Lemma parseCountries_tally (config : Config) (c : string) (n : Z) :
  In (mkRegionCount c n) (parseCountries config)
  <-> n = tally c (proxies_or_empty config) /\ (0 < n)%Z.
Proof.
  unfold parseCountries.
  set (counts := fold_left count_proxy (proxies_or_empty config) []).
  assert (Hok : counts_ok counts) by (apply fold_count_proxy_ok, counts_ok_empty).
  assert (Hc : count_of c counts = tally c (proxies_or_empty config))
    by (unfold counts; now rewrite count_of_fold).
  destruct Hok as [Hnd Hpos]. rewrite Forall_forall in Hpos.
  rewrite in_map_iff. split.
  - intros ([c' n'] & [= -> ->] & Hin).
    pose proof (Hpos _ Hin) as Hn. simpl in Hn.
    apply In_obj_get in Hin; [|exact Hnd].
    unfold count_of in Hc. rewrite Hin in Hc. split; [congruence | exact Hn].
  - intros [-> Hn]. exists (c, tally c (proxies_or_empty config)). split; [reflexivity|].
    apply obj_get_In. unfold count_of in Hc.
    destruct (obj_get c counts) as [m|]; [congruence | lia].
Qed.

Lemma parseCountries_NoDup (config : Config) :
  NoDup (map country (parseCountries config)).
Proof.
  unfold parseCountries.
  set (counts := fold_left count_proxy (proxies_or_empty config) []).
  assert (Hok : counts_ok counts) by (apply fold_count_proxy_ok, counts_ok_empty).
  destruct Hok as [Hnd _]. rewrite map_map.
  erewrite map_ext; [exact Hnd|]. now intros [c n].
Qed.

Lemma find_first {A : Type} (f : A -> bool) (l : list A) (x : A) :
  find f l = Some x
  <-> exists pre post,
      l = pre ++ x :: post /\ f x = true /\ forall e, In e pre -> f e = false.
Proof.
  induction l as [|a l IH]; simpl.
  - split; [discriminate | intros (pre & post & H & _)]. now destruct pre.
  - destruct (f a) eqn:Fa.
    + split.
      * intros [= <-]. exists [], l. repeat split; [exact Fa | intros e []].
      * intros (pre & post & H & Fx & Hpre). destruct pre as [|b pre].
        -- simpl in H. congruence.
        -- injection H as <- _. rewrite (Hpre a) in Fa by now left. discriminate.
    + rewrite IH. split.
      * intros (pre & post & -> & Fx & Hpre). exists (a :: pre), post.
        repeat split; [exact Fx|]. intros e [<-|He]; auto.
      * intros (pre & post & H & Fx & Hpre). destruct pre as [|b pre].
        -- simpl in H. injection H as -> _. congruence.
        -- injection H as <- ->. exists pre, post.
           repeat split; [exact Fx|]. intros e He. apply Hpre. now right.
Qed.

Lemma find_filter_single {A : Type} (f : A -> bool) (l : list A) (x : A) :
  filter f l = [x] -> find f l = Some x.
Proof.
  induction l as [|a l IH]; simpl; [discriminate|].
  destruct (f a); [intros [= -> _]; reflexivity | exact IH].
Qed.

(** C3. A proxy whose name does not match the exclusion pattern is tested
    against the region patterns in catalog order and counted once, under
    the first region whose pattern matches; no other count changes.  A name
    matching exactly one region pattern is counted under that region.  In
    the reported list each region carries the number of proxies so
    classified. *)
Theorem classification_first_match (countryCounts : Obj Z) (proxy : Proxy) :
  test ispRegex (name_or_empty proxy) = false ->
  let name := name_or_empty proxy in
  let after := count_proxy countryCounts proxy in
  (forall c,
      count_of c after
      = (count_of c countryCounts
         + match first_region name with
           | Some r => if String.eqb r c then 1 else 0
           | None => 0
           end)%Z)
  /\ (forall r,
         first_region name = Some r
         <-> exists pre meta post,
             countriesMeta = pre ++ (r, meta) :: post
             /\ test (new_RegExp (pattern meta)) name = true
             /\ forall e, In e pre -> test (new_RegExp (pattern (snd e))) name = false)
  /\ (forall r meta,
         filter (region_matches name) countriesMeta = [(r, meta)] ->
         count_of r after = (count_of r countryCounts + 1)%Z
         /\ forall c, c <> r -> count_of c after = count_of c countryCounts)
  /\ (forall config c n,
         In (mkRegionCount c n) (parseCountries config)
         <-> n = tally c (proxies_or_empty config) /\ (0 < n)%Z).
Proof.
  intros Hisp name after.
  assert (Hstep : forall c,
             count_of c after
             = (count_of c countryCounts
                + match first_region name with
                  | Some r => if String.eqb r c then 1 else 0
                  | None => 0
                  end)%Z).
  { intros c. unfold after, name. rewrite count_of_count_proxy.
    unfold classified_as, classify. cbv zeta. rewrite Hisp.
    now destruct (first_region (name_or_empty proxy)). }
  split; [exact Hstep|]. split; [|split].
  - intros r. unfold first_region. split.
    + destruct (find (region_matches name) countriesMeta) as [[r' meta]|] eqn:E;
        [|discriminate].
      intros [= <-]. apply find_first in E as (pre & post & Hsplit & Hm & Hpre).
      now exists pre, meta, post.
    + intros (pre & meta & post & Hsplit & Hm & Hpre).
      assert (E : find (region_matches name) countriesMeta = Some (r, meta)).
      { apply find_first. now exists pre, post. }
      now rewrite E.
  - intros r meta Hone. apply find_filter_single in Hone.
    assert (E : first_region name = Some r) by (unfold first_region; now rewrite Hone).
    split.
    + now rewrite Hstep, E, String.eqb_refl.
    + intros c Hc. rewrite Hstep, E.
      destruct (String.eqb_spec r c); [congruence | lia].
  - intros config c n. apply parseCountries_tally.
Qed.

Lemma classification_first_match_witness :
  test ispRegex (name_or_empty (proxy_named "US-01 美国")) = false
  /\ count_of "美国" (count_proxy [] (proxy_named "US-01 美国")) = 1%Z
  /\ count_of "香港" (count_proxy [] (proxy_named "US-01 美国")) = 0%Z.
Proof.
  split; [reflexivity|].
  pose proof (proj1 (@classification_first_match [] (proxy_named "US-01 美国") eq_refl))
    as Hstep.
  split; rewrite Hstep; reflexivity.
Defined.

Lemma fold_count_proxy_skips_isp (l : list Proxy) (countryCounts : Obj Z) :
  fold_left count_proxy l countryCounts
  = fold_left count_proxy
      (filter (fun p => negb (test ispRegex (name_or_empty p))) l) countryCounts.
Proof.
  revert countryCounts.
  induction l as [|proxy l IH]; intros countryCounts; simpl; [reflexivity|].
  destruct (test ispRegex (name_or_empty proxy)) eqn:E; simpl.
  - unfold count_proxy at 2. rewrite E. apply IH.
  - apply IH.
Qed.

(** C4. A proxy whose name matches the exclusion pattern leaves every
    region count as it was, whatever region patterns the name matches; the
    low-cost predicate looks at every proxy, excluded or not; an absent or
    empty proxy list gives no region count and no low-cost tier. *)
Theorem isp_proxies_not_counted :
  (forall (countryCounts : Obj Z) proxy,
      test ispRegex (name_or_empty proxy) = true ->
      count_proxy countryCounts proxy = countryCounts)
  /\ (forall l,
         parseCountries (mkConfig (Some l))
         = parseCountries
             (mkConfig (Some (filter (fun p => negb (test ispRegex (name_or_empty p))) l))))
  /\ (forall config,
         hasLowCost config = true
         <-> exists proxy,
             In proxy (proxies_or_empty config)
             /\ test lowCostRegex (name_as_text proxy) = true)
  /\ (let excluded := proxy_named "香港 家宽 0.5x" in
      test ispRegex (name_or_empty excluded) = true
      /\ first_region (name_or_empty excluded) = Some "香港"
      /\ parseCountries (mkConfig (Some [excluded])) = []
      /\ hasLowCost (mkConfig (Some [excluded])) = true)
  /\ parseCountries (mkConfig None) = []
  /\ hasLowCost (mkConfig None) = false
  /\ parseCountries (mkConfig (Some [])) = []
  /\ hasLowCost (mkConfig (Some [])) = false.
Proof.
  split; [|split; [|split; [|split]]].
  - intros countryCounts proxy H. unfold count_proxy. now rewrite H.
  - intros l. unfold parseCountries, proxies_or_empty. simpl proxies.
    now rewrite fold_count_proxy_skips_isp.
  - intros config. unfold hasLowCost. rewrite existsb_exists. reflexivity.
  - repeat split; reflexivity.
  - repeat split; reflexivity.
Qed.

Lemma isp_proxies_not_counted_witness :
  test ispRegex (name_or_empty (proxy_named "JP Starlink 日本")) = true
  /\ count_proxy [("美国", 2%Z)] (proxy_named "JP Starlink 日本") = [("美国", 2%Z)].
Proof.
  split; [reflexivity|].
  apply (proj1 isp_proxies_not_counted). reflexivity.
Defined.

(** ** The emitted groups *)

Lemma objects_map_VObj (l : list (Obj Value)) : objects (VArr (map VObj l)) = l.
Proof.
  unfold objects. induction l as [|g l IH]; simpl; [reflexivity|]. now rewrite IH.
Qed.

Lemma texts_names (l : list string) : texts (names l) = l.
Proof.
  unfold texts, names. induction l as [|s l IH]; simpl; [reflexivity|]. now rewrite IH.
Qed.

Lemma without_null_Some (l : list (Obj Value)) : without_null (map Some l) = l.
Proof.
  unfold without_null. induction l as [|g l IH]; simpl; [reflexivity|]. now rewrite IH.
Qed.

Lemma parseCountries_own_proxies (config : Config) :
  parseCountries (mkConfig (proxies config)) = parseCountries config.
Proof. reflexivity. Qed.

(** What [main] emits as [proxy-groups]: the built groups, then [GLOBAL]
    with the names of the built groups. *)
Lemma main_proxy_groups (flags : Flags) (config : Config) (h : Heap) :
  proxy_groups (fst (main flags config h))
  = built_groups flags config
    ++ [ [ ("name", VStr "GLOBAL");
           ("icon", VStr "https://gcore.jsdelivr.net/gh/Koolson/Qure@master/IconSet/Color/Global.png");
           ("include-all", VBool true);
           ("type", VStr "select");
           ("proxies", VArr (map (fun item => prop item "name")
                                 (built_groups flags config))) ] ].
Proof.
  unfold main.
  destruct (buildRules (quicEnabled flags) h) as [finalRules h'].
  unfold proxy_groups.
  destruct (fullConfig flags); cbn [fst assigned];
    unfold prop, Object_assign;
    cbn [fold_left obj_set obj_get fst snd String.eqb Ascii.eqb Bool.eqb];
    apply objects_map_VObj.
Qed.

Lemma countries_of_selected (flags : Flags) (config : Config) :
  countries_of flags config
  = map country
        (filter (fun item => (count item >=? countryThreshold flags)%Z)
                (parseCountries config)).
Proof.
  unfold countries_of, countryGroupNames_of, getCountryGroupNames.
  rewrite <- (map_map country (fun c => (c ++ NODE_SUFFIX)%string)).
  apply stripNodeSuffix_names.
Qed.

Lemma classified_in_catalog (c : string) (proxy : Proxy) :
  classified_as c proxy = true -> exists meta, obj_get c countriesMeta = Some meta.
Proof.
  unfold classified_as, classify, first_region. cbv zeta.
  destruct (test ispRegex (name_or_empty proxy)); [discriminate|].
  destruct (find (region_matches (name_or_empty proxy)) countriesMeta)
    as [[c' meta]|] eqn:E; [|discriminate].
  cbn [option_map fst]. intros H. apply String.eqb_eq in H. subst c'.
  exists meta. apply In_obj_get; [exact catalog_keys_NoDup|].
  apply find_some in E. tauto.
Qed.

Lemma tally_positive (c : string) (l : list Proxy) :
  (0 < tally c l)%Z -> exists proxy, In proxy l /\ classified_as c proxy = true.
Proof.
  unfold tally. destruct (filter (classified_as c) l) as [|proxy rest] eqn:E.
  - simpl. lia.
  - intros _. exists proxy. apply filter_In. rewrite E. now left.
Qed.

Lemma parseCountries_in_catalog (config : Config) (item : RegionCount) :
  In item (parseCountries config) ->
  exists meta, obj_get (country item) countriesMeta = Some meta.
Proof.
  destruct item as [c n]. intros H. apply parseCountries_tally in H as [-> Hpos].
  apply tally_positive in Hpos as (proxy & _ & Hc).
  exact (classified_in_catalog _ _ Hc).
Qed.

Lemma countries_of_in_catalog (flags : Flags) (config : Config) (c : string) :
  In c (countries_of flags config) ->
  exists meta, countriesMeta_at c = Some (Own meta).
Proof.
  rewrite countries_of_selected, in_map_iff. intros (item & <- & Hin).
  apply filter_In in Hin as [Hin _].
  apply parseCountries_in_catalog in Hin as [meta E].
  exists meta. unfold countriesMeta_at. now rewrite E.
Qed.

(** Every field of a pool that [buildCountryProxyGroups] pushes. *)
Lemma pool_fields (countries : list string) (landing loadBalance : bool)
      (g : Obj Value) :
  In g (buildCountryProxyGroups countries landing loadBalance) ->
  exists c meta,
    In c countries
    /\ countriesMeta_at c = Some meta
    /\ prop g "name" = VStr (c ++ NODE_SUFFIX)
    /\ prop g "filter" = meta_pattern meta
    /\ prop g "exclude-filter"
       = VStr (if landing
               then "(?i)家宽|家庭|家庭宽带|商宽|商业宽带|星链|Starlink|落地|0\.[0-5]|低倍率|省流|大流量|实验性"
               else "0\.[0-5]|低倍率|省流|大流量|实验性")
    /\ prop g "type" = VStr (if loadBalance then "load-balance" else "url-test")
    /\ (loadBalance = false ->
        prop g "url" = VStr "https://cp.cloudflare.com/generate_204"
        /\ prop g "interval" = VNum 60
        /\ prop g "tolerance" = VNum 20
        /\ prop g "lazy" = VBool false).
Proof.
  unfold buildCountryProxyGroups. cbv zeta. rewrite in_flat_map.
  intros (c & Hc & Hg).
  destruct (countriesMeta_at c) as [meta|] eqn:E; [|destruct Hg].
  destruct Hg as [<-|[]]. exists c, meta.
  split; [exact Hc|]. split; [exact E|].
  destruct loadBalance, landing; repeat split; try reflexivity; discriminate.
Qed.

Lemma pool_name (countries : list string) (landing loadBalance : bool)
      (g : Obj Value) :
  In g (buildCountryProxyGroups countries landing loadBalance) ->
  exists c, In c countries /\ prop g "name" = VStr (c ++ NODE_SUFFIX)
            /\ group_name g = Some (c ++ NODE_SUFFIX)%string.
Proof.
  intros H. apply pool_fields in H as (c & meta & Hc & _ & Hname & _).
  exists c. repeat split; [exact Hc | exact Hname |].
  unfold prop in Hname. unfold group_name.
  destruct (obj_get "name" g) as [v|]; [|discriminate]. now subst v.
Qed.

(** C5. Every region pool is of type [load-balance] when the flag is set
    and [url-test] otherwise; its filter is the pattern of its region; its
    exclude-filter is the low-cost pattern, preceded by the landing
    keywords exactly when landing is enabled; a [url-test] pool carries the
    health-check URL, an interval, a tolerance and [lazy] false.  The pools
    of [main] are pools of catalog regions and are emitted. *)
Theorem region_pool_shape :
  (forall countries landing loadBalance g,
      In g (buildCountryProxyGroups countries landing loadBalance) ->
      exists c meta excludeFilter,
        In c countries
        /\ countriesMeta_at c = Some meta
        /\ prop g "name" = VStr (c ++ NODE_SUFFIX)
        /\ prop g "type" = VStr (if loadBalance then "load-balance" else "url-test")
        /\ prop g "filter" = meta_pattern meta
        /\ prop g "exclude-filter" = VStr excludeFilter
        /\ str_includes "0\.[0-5]|低倍率|省流|大流量|实验性" excludeFilter = true
        /\ str_includes "(?i)家宽|家庭|家庭宽带|商宽|商业宽带|星链|Starlink|落地"
                        excludeFilter = landing
        /\ (prop g "type" = VStr "url-test" ->
            prop g "url" = VStr "https://cp.cloudflare.com/generate_204"
            /\ prop g "interval" = VNum 60
            /\ prop g "tolerance" = VNum 20
            /\ prop g "lazy" = VBool false))
  /\ (forall flags config h g,
         In g (countryProxyGroups_of flags config) ->
         In g (proxy_groups (fst (main flags config h)))
         /\ exists c meta,
             obj_get c countriesMeta = Some meta
             /\ prop g "name" = VStr (c ++ NODE_SUFFIX)
             /\ prop g "filter" = VStr (pattern meta)).
Proof.
  split.
  - intros countries landing loadBalance g Hin.
    apply pool_fields in Hin
      as (c & meta & Hc & Hmeta & Hname & Hfilter & Hex & Htype & Hurl).
    exists c, meta.
    eexists. repeat (split; [eassumption|]).
    split; [destruct landing; reflexivity|].
    split; [destruct landing; reflexivity|].
    rewrite Htype. destruct loadBalance; [discriminate|]. intros _. now apply Hurl.
  - intros flags config h g Hin. split.
    + rewrite main_proxy_groups. apply in_or_app. left.
      unfold built_groups, buildProxyGroups. cbv zeta.
      unfold without_null. rewrite flat_map_app. apply in_or_app. right.
      fold (without_null (map Some (countryProxyGroups_of flags config))).
      now rewrite without_null_Some.
    + apply pool_fields in Hin as (c & meta & Hc & Hmeta & Hname & Hfilter & _).
      apply countries_of_in_catalog in Hc as [m Hm].
      rewrite Hm in Hmeta. injection Hmeta as <-.
      exists c, m. repeat split; [|exact Hname | exact Hfilter].
      unfold countriesMeta_at in Hm.
      destruct (obj_get c countriesMeta) as [m'|]; [congruence|].
      destruct (existsb (String.eqb c) Object_prototype_keys); discriminate.
Qed.

Lemma region_pool_shape_witness :
  let pools := buildCountryProxyGroups ["香港"; "美国"] false false in
  let g := nth 1 pools [] in
  In g pools
  /\ exists c meta excludeFilter,
      In c ["香港"; "美国"]
      /\ countriesMeta_at c = Some meta
      /\ prop g "exclude-filter" = VStr excludeFilter
      /\ str_includes "0\.[0-5]|低倍率|省流|大流量|实验性" excludeFilter = true.
Proof.
  intros pools g.
  assert (Hin : In g pools) by (right; left; reflexivity).
  split; [exact Hin|].
  destruct (proj1 region_pool_shape ["香港"; "美国"] false false g Hin)
    as (c & meta & excludeFilter & Hc & Hmeta & _ & _ & _ & Hex & Hlow & _).
  now exists c, meta, excludeFilter.
Defined.

Lemma group_name_prop (g : Obj Value) (s : string) :
  group_name g = Some s <-> prop g "name" = VStr s.
Proof.
  unfold group_name, prop.
  destruct (obj_get "name" g) as [[]|]; split; congruence.
Qed.

(** The groups [buildProxyGroups] writes out itself come first, under the
    names of [hub_names]; the region pools follow.  With landing enabled,
    the group named 前置代理 has the filtered selector list as members. *)
Lemma buildProxyGroups_hubs (landing : bool) (countries : list string)
      (countryProxyGroups : list (Obj Value)) (lowCost : bool)
      (defaultProxies defaultProxiesDirect defaultSelector defaultFallback
       : list string) :
  exists hubs,
    buildProxyGroups landing countries countryProxyGroups lowCost
                     defaultProxies defaultProxiesDirect
                     defaultSelector defaultFallback
    = hubs ++ countryProxyGroups
    /\ map (fun g => prop g "name") hubs = map VStr (hub_names landing lowCost)
    /\ (landing = true ->
        forall g, In g hubs -> prop g "name" = VStr "前置代理" ->
                  prop g "proxies"
                  = names (filter
                             (fun name => negb (String.eqb name PROXY_GROUPS.LANDING)
                                          && negb (String.eqb name PROXY_GROUPS.FALLBACK))
                             defaultSelector)).
Proof.
  eexists. split; [|split].
  - unfold buildProxyGroups. cbv zeta. unfold without_null at 1.
    rewrite flat_map_app.
    fold (without_null (map Some countryProxyGroups)).
    rewrite without_null_Some. reflexivity.
  - destruct landing, lowCost; reflexivity.
  - intros ->. destruct lowCost; cbn [flat_map app]; intros g Hin Hname;
      repeat (destruct Hin as [<-|Hin];
              [first [reflexivity | lazy in Hname; discriminate Hname]|]);
      destruct Hin.
Qed.

Lemma not_a_region_name (s : string) (c : string) :
  match_at_end NODE_SUFFIX s = None -> s <> (c ++ NODE_SUFFIX)%string.
Proof.
  intros H ->. rewrite match_at_end_append in H. discriminate.
Qed.

Lemma hub_names_regions (landing lowCost : bool) (c : string) :
  In (c ++ NODE_SUFFIX)%string (hub_names landing lowCost) ->
  c = "落地" \/ c = "低倍率".
Proof.
  intros H.
  assert (Hs : forall s, In s (hub_names landing lowCost) ->
                         match_at_end NODE_SUFFIX s = None
                         \/ s = ("落地" ++ NODE_SUFFIX)%string
                         \/ s = ("低倍率" ++ NODE_SUFFIX)%string).
  { intros s Hin. destruct landing, lowCost; simpl in Hin;
      repeat (destruct Hin as [<-|Hin];
              [first [left; reflexivity | right; left; reflexivity
                     | right; right; reflexivity]|]);
      destruct Hin. }
  destruct (Hs _ H) as [Hn|[E|E]].
  - exfalso. exact (not_a_region_name _ Hn eq_refl).
  - left. exact (append_suffix_inj _ _ _ E).
  - right. exact (append_suffix_inj _ _ _ E).
Qed.

Lemma hub_names_no_GLOBAL (landing lowCost : bool) :
  ~ In "GLOBAL" (hub_names landing lowCost).
Proof.
  destruct landing, lowCost; simpl; intros H;
    repeat (destruct H as [H|H]; [discriminate H|]); exact H.
Qed.

(** The names of the pools, in order: one per region that the catalog
    lookup finds. *)
Lemma pool_names (countries : list string) (landing loadBalance : bool) :
  map (fun g => prop g "name")
      (buildCountryProxyGroups countries landing loadBalance)
  = map (fun c => VStr (c ++ NODE_SUFFIX))
        (filter (fun c => match countriesMeta_at c with
                          | Some _ => true
                          | None => false
                          end)
                countries).
Proof.
  unfold buildCountryProxyGroups. cbv zeta.
  induction countries as [|c countries IH]; [reflexivity|].
  cbn [flat_map filter]. rewrite map_app, IH.
  destruct (countriesMeta_at c); [|reflexivity].
  destruct loadBalance; reflexivity.
Qed.

Lemma built_groups_names (flags : Flags) (config : Config) :
  exists pooled,
    incl pooled (countries_of flags config)
    /\ map (fun g => prop g "name") (built_groups flags config)
       = map VStr (hub_names (landing flags) (hasLowCost config)
                   ++ map (fun c => (c ++ NODE_SUFFIX)%string) pooled).
Proof.
  exists (filter (fun c => match countriesMeta_at c with
                           | Some _ => true
                           | None => false
                           end)
                 (countries_of flags config)).
  split; [intros c Hc; apply filter_In in Hc; tauto|].
  destruct (buildProxyGroups_hubs (landing flags) (countries_of flags config)
              (countryProxyGroups_of flags config) (hasLowCost config)
              (defaultProxies (lists_of flags config))
              (defaultProxiesDirect (lists_of flags config))
              (defaultSelector (lists_of flags config))
              (defaultFallback (lists_of flags config)))
    as (hubs & Hsplit & Hnames & _).
  change (built_groups flags config)
    with (buildProxyGroups (landing flags) (countries_of flags config)
              (countryProxyGroups_of flags config) (hasLowCost config)
              (defaultProxies (lists_of flags config))
              (defaultProxiesDirect (lists_of flags config))
              (defaultSelector (lists_of flags config))
              (defaultFallback (lists_of flags config))).
  rewrite Hsplit.
  rewrite !map_app.
  rewrite Hnames.
  unfold countryProxyGroups_of.
  rewrite pool_names.
  rewrite map_map.
  reflexivity.
Qed.

(** C2. [GLOBAL] is the last emitted group; its members are the names of
    all the other emitted groups, in the order they were built, and
    [GLOBAL] is not among them. *)
Theorem GLOBAL_lists_every_other_group (flags : Flags) (config : Config) (h : Heap) :
  exists others G ns,
    proxy_groups (fst (main flags config h)) = others ++ [G]
    /\ group_name G = Some "GLOBAL"
    /\ map group_name others = map Some ns
    /\ prop G "proxies" = names ns
    /\ ~ In "GLOBAL" ns.
Proof.
  destruct (built_groups_names flags config) as (pooled & _ & Hnames).
  exists (built_groups flags config).
  eexists.
  exists (hub_names (landing flags) (hasLowCost config)
          ++ map (fun c => (c ++ NODE_SUFFIX)%string) pooled).
  split; [apply main_proxy_groups|].
  split; [reflexivity|].
  assert (Hopt : forall (l : list (Obj Value)) (ns : list string),
             map (fun g => prop g "name") l = map VStr ns ->
             map group_name l = map Some ns).
  { induction l as [|g l IH]; intros [|s ns] H; try discriminate H; [reflexivity|].
    injection H as Hg Hl. simpl. rewrite (IH _ Hl).
    apply group_name_prop in Hg. now rewrite Hg. }
  split; [exact (Hopt _ _ Hnames)|].
  split; [unfold names; rewrite <- Hnames; reflexivity|].
  intros H. apply in_app_or in H as [H|H].
  - now apply hub_names_no_GLOBAL in H.
  - apply in_map_iff in H as (c & E & _).
    symmetry in E. revert E. now apply not_a_region_name.
Qed.

(** The emitted list: the groups written out by [buildProxyGroups], the
    region pools, then [GLOBAL]. *)
Lemma emitted_groups (flags : Flags) (config : Config) (h : Heap) :
  exists hubs G,
    proxy_groups (fst (main flags config h))
    = hubs ++ countryProxyGroups_of flags config ++ [G]
    /\ map (fun g => prop g "name") hubs
       = map VStr (hub_names (landing flags) (hasLowCost config))
    /\ prop G "name" = VStr "GLOBAL"
    /\ (landing flags = true ->
        forall g, In g hubs -> prop g "name" = VStr "前置代理" ->
                  prop g "proxies"
                  = names (filter
                             (fun name => negb (String.eqb name PROXY_GROUPS.LANDING)
                                          && negb (String.eqb name PROXY_GROUPS.FALLBACK))
                             (defaultSelector (lists_of flags config)))).
Proof.
  destruct (buildProxyGroups_hubs (landing flags) (countries_of flags config)
              (countryProxyGroups_of flags config) (hasLowCost config)
              (defaultProxies (lists_of flags config))
              (defaultProxiesDirect (lists_of flags config))
              (defaultSelector (lists_of flags config))
              (defaultFallback (lists_of flags config)))
    as (hubs & Hsplit & Hnames & Hfront).
  exists hubs. eexists.
  split; [|split; [exact Hnames | split; [|exact Hfront]]].
  - rewrite main_proxy_groups.
    change (built_groups flags config)
      with (buildProxyGroups (landing flags) (countries_of flags config)
              (countryProxyGroups_of flags config) (hasLowCost config)
              (defaultProxies (lists_of flags config))
              (defaultProxiesDirect (lists_of flags config))
              (defaultSelector (lists_of flags config))
              (defaultFallback (lists_of flags config))).
    rewrite Hsplit, <- app_assoc. reflexivity.
  - reflexivity.
Qed.

(** C1. With landing enabled the group 前置代理 is emitted, and the members
    of a group of that name are the top-level selector list without the
    names of the landing group and the fallback group; neither name is a
    member. *)
Theorem front_proxy_breaks_cycle (flags : Flags) (config : Config) (h : Heap) :
  landing flags = true ->
  let groups := proxy_groups (fst (main flags config h)) in
  let members :=
    filter (fun name => negb (String.eqb name PROXY_GROUPS.LANDING)
                        && negb (String.eqb name PROXY_GROUPS.FALLBACK))
           (defaultSelector (lists_of flags config)) in
  (exists g, In g groups /\ group_name g = Some "前置代理")
  /\ (forall g, In g groups -> group_name g = Some "前置代理" ->
                prop g "proxies" = names members)
  /\ ~ In PROXY_GROUPS.LANDING members
  /\ ~ In PROXY_GROUPS.FALLBACK members.
Proof.
  intros Hlanding groups members. subst groups.
  destruct (emitted_groups flags config h) as (hubs & G & -> & Hnames & HG & Hfront).
  specialize (Hfront Hlanding). rewrite Hlanding in Hnames.
  split; [|split; [|split]].
  - assert (Hin : In (VStr "前置代理") (map (fun g => prop g "name") hubs)).
    { rewrite Hnames. apply in_map. right. right. now left. }
    apply in_map_iff in Hin as (g & Hg & Hin).
    exists g. split; [apply in_or_app; now left | now apply group_name_prop].
  - intros g Hin Hname. apply group_name_prop in Hname.
    apply in_app_or in Hin as [Hin|Hin]; [now apply Hfront|].
    apply in_app_or in Hin as [Hin|[<-|[]]].
    + apply pool_name in Hin as (c & _ & Hc & _).
      rewrite Hc in Hname. injection Hname as Hname. symmetry in Hname.
      exfalso. revert Hname. now apply not_a_region_name.
    + rewrite HG in Hname. discriminate Hname.
  - unfold members. intros H. apply filter_In in H as [_ H]. discriminate H.
  - unfold members. intros H. apply filter_In in H as [_ H]. discriminate H.
Qed.

Lemma front_proxy_breaks_cycle_witness :
  let flags := mkFlags false true false false false false false 0 in
  landing flags = true
  /\ exists g, In g (proxy_groups (fst (main flags scenario module_heap)))
               /\ group_name g = Some "前置代理".
Proof.
  intros flags. split; [reflexivity|].
  exact (proj1 (@front_proxy_breaks_cycle flags scenario module_heap eq_refl)).
Defined.

(** C9. A region counted at least once but fewer times than the threshold
    is not among the regions given to pool synthesis, which are the regions
    of the threshold-filtered names; no pool and no other emitted group
    bears its group name. *)
Theorem below_threshold_no_pool (flags : Flags) (config : Config) (h : Heap)
        (c : string) (n : Z) :
  In (mkRegionCount c n) (parseCountries config) ->
  n <> 0%Z ->
  (n < countryThreshold flags)%Z ->
  countries_of flags config
  = map country (filter (fun item => (count item >=? countryThreshold flags)%Z)
                        (parseCountries config))
  /\ ~ In c (countries_of flags config)
  /\ (forall g, In g (countryProxyGroups_of flags config) ->
                group_name g <> Some (c ++ NODE_SUFFIX)%string)
  /\ (forall g, In g (proxy_groups (fst (main flags config h))) ->
                group_name g <> Some (c ++ NODE_SUFFIX)%string).
Proof.
  intros Hin _ Hlt.
  assert (Hnot : ~ In c (countries_of flags config)).
  { rewrite countries_of_selected, in_map_iff.
    intros ([c' m] & Hc & Hm). simpl in Hc. subst c'.
    apply filter_In in Hm as [Hm Hge]. simpl in Hge. apply Z.geb_le in Hge.
    apply parseCountries_tally in Hm as [-> _].
    apply parseCountries_tally in Hin as [-> _]. lia. }
  assert (Hpool : forall g, In g (countryProxyGroups_of flags config) ->
                            group_name g <> Some (c ++ NODE_SUFFIX)%string).
  { intros g Hg Hname. apply pool_name in Hg as (c' & Hc' & _ & Hg).
    rewrite Hg in Hname. injection Hname as Hname.
    apply append_suffix_inj in Hname. now subst c'. }
  split; [apply countries_of_selected|]. split; [exact Hnot|]. split; [exact Hpool|].
  intros g Hg Hname.
  destruct (emitted_groups flags config h) as (hubs & G & E & Hnames & HG & _).
  rewrite E in Hg. apply group_name_prop in Hname.
  apply in_app_or in Hg as [Hg|Hg]; [|apply in_app_or in Hg as [Hg|[<-|[]]]].
  - assert (Hh : In (VStr (c ++ NODE_SUFFIX)) (map VStr (hub_names (landing flags) (hasLowCost config)))).
    { rewrite <- Hnames, <- Hname. now apply (in_map (fun g => prop g "name")). }
    apply in_map_iff in Hh as (s & [= Hs] & Hh). subst s.
    apply parseCountries_in_catalog in Hin as [meta Hmeta]. simpl in Hmeta.
    apply hub_names_regions in Hh as [-> | ->]; discriminate Hmeta.
  - apply (Hpool g Hg). now apply group_name_prop.
  - rewrite HG in Hname. injection Hname as Hname.
    revert Hname. now apply not_a_region_name.
Qed.

Lemma below_threshold_no_pool_witness :
  let flags := mkFlags false false false false false false false 2 in
  In (mkRegionCount "香港" 1) (parseCountries scenario)
  /\ (1 < countryThreshold flags)%Z
  /\ ~ In "香港" (countries_of flags scenario).
Proof.
  intros flags.
  assert (Hin : In (mkRegionCount "香港" 1) (parseCountries scenario))
    by (left; reflexivity).
  assert (Hlt : (1 < countryThreshold flags)%Z) by (simpl; lia).
  assert (Hnz : 1%Z <> 0%Z) by discriminate.
  split; [exact Hin|]. split; [exact Hlt|].
  exact (proj1 (proj2 (@below_threshold_no_pool flags scenario module_heap
                                                 "香港" 1%Z Hin Hnz Hlt))).
Defined.

(** ** The rule list and the store *)

Lemma deref_alloc (h : Heap) (a : list string) :
  deref (snd (alloc h a)) (fst (alloc h a)) = a.
Proof.
  unfold deref, alloc. simpl. rewrite app_nth2 by lia. now rewrite Nat.sub_diag.
Qed.

Lemma assign_last (h : Heap) (a b : list string) :
  assign (h ++ [a]) (length h) b = h ++ [b].
Proof. induction h as [|x h IH]; simpl; [reflexivity | now rewrite IH]. Qed.

Lemma nth_last (h : Heap) (a : list string) : nth (length h) (h ++ [a]) [] = a.
Proof. rewrite app_nth2 by lia. now rewrite Nat.sub_diag. Qed.

(** [buildRules] leaves [baseRules] as it found it and returns a new
    array: the base rules, after the QUIC block unless QUIC is enabled. *)
Lemma buildRules_intact (quicEnabled : bool) (h : Heap) :
  intact h ->
  intact (snd (buildRules quicEnabled h))
  /\ deref (snd (buildRules quicEnabled h)) (fst (buildRules quicEnabled h))
     = if quicEnabled then baseRules_entries else QUIC_BLOCK :: baseRules_entries.
Proof.
  unfold intact, baseRules. destruct h as [|base rest]; [discriminate|].
  simpl. intros [= ->].
  unfold buildRules, spread, alloc, unshift, baseRules, deref.
  cbn [nth length app].
  destruct quicEnabled; cbn [negb fst snd nth assign nth_error].
  - now rewrite nth_last.
  - rewrite nth_last, assign_last. cbn [nth]. now rewrite nth_last.
Qed.

Lemma module_heap_intact : intact module_heap.
Proof. reflexivity. Qed.

Lemma main_rules (flags : Flags) (config : Config) (h : Heap) :
  rules (fst (main flags config h))
  = deref (snd (buildRules (quicEnabled flags) h))
          (fst (buildRules (quicEnabled flags) h)).
Proof.
  unfold main.
  destruct (buildRules (quicEnabled flags) h) as [finalRules h'].
  unfold rules.
  destruct (fullConfig flags); cbn [fst snd assigned];
    unfold prop, Object_assign;
    cbn [fold_left obj_set obj_get fst snd String.eqb Ascii.eqb Bool.eqb];
    apply texts_names.
Qed.

Lemma main_heap (flags : Flags) (config : Config) (h : Heap) :
  snd (main flags config h) = snd (buildRules (quicEnabled flags) h).
Proof.
  unfold main. now destruct (buildRules (quicEnabled flags) h).
Qed.

(** The configuration [main] returns is fixed by the flags, the input and
    the rules found in the new array. *)
Lemma main_output (flags : Flags) (config : Config) (h1 h2 : Heap) :
  deref (snd (buildRules (quicEnabled flags) h1))
        (fst (buildRules (quicEnabled flags) h1))
  = deref (snd (buildRules (quicEnabled flags) h2))
          (fst (buildRules (quicEnabled flags) h2)) ->
  fst (main flags config h1) = fst (main flags config h2).
Proof.
  unfold main.
  destruct (buildRules (quicEnabled flags) h1) as [r1 h1'].
  destruct (buildRules (quicEnabled flags) h2) as [r2 h2'].
  cbn [fst snd]. intros ->. reflexivity.
Qed.

(** C6. With QUIC not enabled the emitted rules are the UDP/443 block
    followed by the base rules in their order; with QUIC enabled they are
    the base rules and the block is absent.  In both cases the list ends
    with the one [MATCH] rule, and no other rule is a [MATCH] rule. *)
Theorem rules_quic_block_and_single_match
        (flags : Flags) (config : Config) (h : Heap) :
  intact h ->
  let emitted := rules (fst (main flags config h)) in
  (quicEnabled flags = false -> emitted = QUIC_BLOCK :: baseRules_entries)
  /\ (quicEnabled flags = true ->
      emitted = baseRules_entries /\ ~ In QUIC_BLOCK emitted)
  /\ (exists front,
         emitted = front ++ ["MATCH,🐟 漏网之鱼"]
         /\ forallb (fun rule => negb (is_catch_all rule)) front = true)
  /\ length (filter is_catch_all emitted) = 1%nat.
Proof.
  intros Hh emitted. subst emitted. rewrite main_rules.
  destruct (buildRules_intact (quicEnabled flags) Hh) as [_ ->].
  destruct (quicEnabled flags).
  - split; [discriminate|]. split.
    + intros _. split; [reflexivity|].
      simpl. intros H. repeat (destruct H as [H|H]; [discriminate H|]). exact H.
    + split; [|reflexivity].
      exists (removelast baseRules_entries). split; reflexivity.
  - split; [reflexivity|]. split; [discriminate|].
    split; [|reflexivity].
    exists (QUIC_BLOCK :: removelast baseRules_entries). split; reflexivity.
Qed.

Lemma rules_quic_block_and_single_match_witness :
  intact module_heap
  /\ rules (fst (main default_flags scenario module_heap))
     = QUIC_BLOCK :: baseRules_entries.
Proof.
  split; [exact module_heap_intact|].
  exact (proj1 (@rules_quic_block_and_single_match default_flags scenario
                  module_heap module_heap_intact) eq_refl).
Defined.

Lemma main_preserves_intact (flags : Flags) (config : Config) (h : Heap) :
  intact h ->
  intact (snd (main flags config h))
  /\ fst (main flags config h) = fst (main flags config module_heap).
Proof.
  intros Hh. rewrite main_heap.
  destruct (buildRules_intact (quicEnabled flags) Hh) as [Hi Hd].
  split; [exact Hi|].
  apply main_output. rewrite Hd.
  now destruct (buildRules_intact (quicEnabled flags) module_heap_intact) as [_ ->].
Qed.

Lemma runs_from_intact (n : nat) (flags : Flags) (config : Config) (h : Heap) :
  intact h ->
  length (fst (runs n flags config h)) = n
  /\ Forall (fun out => out = fst (main flags config module_heap))
            (fst (runs n flags config h))
  /\ intact (snd (runs n flags config h)).
Proof.
  revert h. induction n as [|n IH]; intros h Hh; cbn [runs].
  - repeat split; [constructor | exact Hh].
  - destruct (main_preserves_intact flags config Hh) as [Hi Ho].
    destruct (main flags config h) as [out h'].
    cbn [fst snd] in Hi, Ho.
    destruct (IH h' Hi) as (Hlen & Hall & Hint).
    destruct (runs n flags config h') as [outs h''].
    cbn [fst snd length] in *.
    repeat split; [congruence | constructor; assumption | exact Hint].
Qed.

(** C8. Runs of [main] on the same flags and input return the same
    configuration: the configuration does not depend on the store a run
    starts from as long as [baseRules] is as loaded, every run leaves
    [baseRules] as loaded, and so all of any number of successive runs
    return the configuration of the first. *)
Theorem main_deterministic (flags : Flags) (config : Config) :
  (forall h, intact h ->
             fst (main flags config h) = fst (main flags config module_heap)
             /\ intact (snd (main flags config h)))
  /\ (forall n,
         length (fst (runs n flags config module_heap)) = n
         /\ Forall (fun out => out = fst (main flags config module_heap))
                   (fst (runs n flags config module_heap)))
  /\ (forall parseInt10 args h,
         intact h ->
         fst (convert parseInt10 args config h)
         = fst (convert parseInt10 args config module_heap)).
Proof.
  split; [|split].
  - intros h Hh. destruct (main_preserves_intact flags config Hh). now split.
  - intros n.
    destruct (runs_from_intact n flags config module_heap_intact) as (Hlen & Hall & _).
    now split.
  - intros parseInt10 args h Hh. unfold convert.
    now destruct (main_preserves_intact (buildFeatureFlags parseInt10 args) config Hh).
Qed.

Lemma main_deterministic_witness :
  intact (snd (main default_flags scenario module_heap))
  /\ fst (main default_flags scenario (snd (main default_flags scenario module_heap)))
     = fst (main default_flags scenario module_heap).
Proof.
  destruct (proj1 (main_deterministic default_flags scenario) module_heap
                  module_heap_intact) as [_ Hi].
  split; [exact Hi|].
  exact (proj1 (proj1 (main_deterministic default_flags scenario) _ Hi)).
Defined.

(** ** Further properties: classification *)

Lemma sum_obj_set (k : string) (v : Z) (o : Obj Z) :
  fold_right Z.add 0%Z (map snd (obj_set k v o))
  = (fold_right Z.add 0%Z (map snd o) - count_of k o + v)%Z.
Proof.
  unfold count_of. induction o as [|[k' v'] rest IH]; simpl.
  - lia.
  - destruct (String.eqb k k'); simpl; [lia | rewrite IH; lia].
Qed.

Lemma sum_count_one (c : string) (countryCounts : Obj Z) :
  fold_right Z.add 0%Z (map snd (count_one c countryCounts))
  = (fold_right Z.add 0%Z (map snd countryCounts) + 1)%Z.
Proof.
  unfold count_one. rewrite sum_obj_set. unfold count_of.
  destruct (obj_get c countryCounts) as [n|]; [destruct (Z.eqb_spec n 0)|]; lia.
Qed.

Lemma sum_fold_count_proxy (l : list Proxy) (countryCounts : Obj Z) :
  fold_right Z.add 0%Z (map snd (fold_left count_proxy l countryCounts))
  = (fold_right Z.add 0%Z (map snd countryCounts)
     + Z.of_nat (length (filter is_classified l)))%Z.
Proof.
  revert countryCounts.
  induction l as [|proxy l IH]; intros countryCounts; simpl; [lia|].
  rewrite IH, count_proxy_classify. unfold is_classified.
  destruct (classify proxy); [rewrite sum_count_one; simpl length|]; lia.
Qed.

(** X3. The regions [parseCountries] reports are pairwise distinct keys of
    the catalog, each with a count of at least one, and the counts add up
    to the number of proxies that are classified under some region: no
    proxy is counted twice, and at most as many as there are proxies. *)
Theorem parseCountries_reports_each_proxy_once (config : Config) :
  NoDup (map country (parseCountries config))
  /\ (forall item, In item (parseCountries config) ->
                   (1 <= count item)%Z
                   /\ exists meta, obj_get (country item) countriesMeta = Some meta)
  /\ total_count (parseCountries config)
     = Z.of_nat (length (filter is_classified (proxies_or_empty config)))
  /\ (total_count (parseCountries config)
      <= Z.of_nat (length (proxies_or_empty config)))%Z.
Proof.
  assert (Hsum : total_count (parseCountries config)
                 = Z.of_nat (length (filter is_classified (proxies_or_empty config)))).
  { unfold total_count, parseCountries. rewrite map_map.
    erewrite map_ext; [rewrite sum_fold_count_proxy; simpl; lia|].
    now intros [c n]. }
  split; [apply parseCountries_NoDup|]. split; [|split; [exact Hsum|]].
  - intros [c n] Hin. split.
    + apply parseCountries_tally in Hin as [_ Hpos]. simpl. lia.
    + now apply parseCountries_in_catalog in Hin.
  - rewrite Hsum. apply inj_le. apply filter_length_le.
Qed.

Lemma tally_Permutation (c : string) (l l' : list Proxy) :
  Permutation l l' -> tally c l = tally c l'.
Proof.
  unfold tally. intros H. f_equal.
  induction H; simpl; try destruct (classified_as c x); try destruct (classified_as c y);
    simpl; congruence.
Qed.

(** X4. The reported counts do not depend on the order of the proxies: a
    rearranged proxy list reports the same entries (possibly in another
    order). *)
Theorem parseCountries_Permutation (l l' : list Proxy) (item : RegionCount) :
  Permutation l l' ->
  In item (parseCountries (mkConfig (Some l)))
  <-> In item (parseCountries (mkConfig (Some l'))).
Proof.
  intros H. destruct item as [c n].
  rewrite !parseCountries_tally. cbn [proxies_or_empty proxies].
  now rewrite (tally_Permutation c H).
Qed.

Lemma parseCountries_Permutation_witness :
  Permutation [ proxy_named "US 1"; proxy_named "HK 1" ]
              [ proxy_named "HK 1"; proxy_named "US 1" ]
  /\ (In (mkRegionCount "美国" 1)
         (parseCountries (mkConfig (Some [ proxy_named "US 1"; proxy_named "HK 1" ])))
      <-> In (mkRegionCount "美国" 1)
             (parseCountries (mkConfig (Some [ proxy_named "HK 1"; proxy_named "US 1" ])))).
Proof.
  assert (H : Permutation [ proxy_named "US 1"; proxy_named "HK 1" ]
                          [ proxy_named "HK 1"; proxy_named "US 1" ])
    by apply perm_swap.
  split; [exact H|].
  exact (@parseCountries_Permutation _ _ (mkRegionCount "美国" 1) H).
Defined.

Lemma keys_count_proxy (countryCounts : Obj Z) (proxy : Proxy) :
  exists more, obj_keys (count_proxy countryCounts proxy) = obj_keys countryCounts ++ more.
Proof.
  rewrite count_proxy_classify. destruct (classify proxy) as [c|].
  - unfold count_one. rewrite obj_keys_set.
    destruct (obj_get c countryCounts); [exists [] | exists [c]];
      now rewrite ?app_nil_r.
  - exists []. now rewrite app_nil_r.
Qed.

Lemma keys_fold_count_proxy (l : list Proxy) (countryCounts : Obj Z) :
  exists more,
    obj_keys (fold_left count_proxy l countryCounts) = obj_keys countryCounts ++ more.
Proof.
  revert countryCounts.
  induction l as [|proxy l IH]; intros countryCounts; simpl.
  - exists []. now rewrite app_nil_r.
  - destruct (IH (count_proxy countryCounts proxy)) as [more1 E1].
    destruct (keys_count_proxy countryCounts proxy) as [more2 E2].
    exists (more2 ++ more1). now rewrite E1, E2, app_assoc.
Qed.

Lemma parseCountries_keys (l : list Proxy) :
  map country (parseCountries (mkConfig (Some l)))
  = obj_keys (fold_left count_proxy l []).
Proof.
  unfold parseCountries, obj_keys; cbn [proxies_or_empty proxies].
  rewrite map_map. apply map_ext. now intros [c n].
Qed.

(** X5. Regions are reported in the order in which their first proxy
    appears: proxies added at the end of the list never move or remove a
    region already reported, they only raise counts and add regions after
    the ones present. *)
Theorem parseCountries_order_of_first_appearance (l l' : list Proxy) :
  (exists more,
      map country (parseCountries (mkConfig (Some (l ++ l'))))
      = map country (parseCountries (mkConfig (Some l))) ++ more)
  /\ (forall c n, In (mkRegionCount c n) (parseCountries (mkConfig (Some l))) ->
                  exists n', (n <= n')%Z
                             /\ In (mkRegionCount c n')
                                   (parseCountries (mkConfig (Some (l ++ l'))))).
Proof.
  split.
  - rewrite !parseCountries_keys, fold_left_app. apply keys_fold_count_proxy.
  - intros c n Hin. apply parseCountries_tally in Hin as [-> Hpos].
    cbn [proxies_or_empty proxies] in *.
    exists (tally c (l ++ l')).
    assert (Hle : (tally c l <= tally c (l ++ l'))%Z).
    { unfold tally. rewrite filter_app, length_app. lia. }
    split; [exact Hle|]. apply parseCountries_tally.
    cbn [proxies_or_empty proxies]. split; [reflexivity | lia].
Qed.

Lemma unnamed_not_classified (proxy : Proxy) :
  has_name proxy = false ->
  classify proxy = None /\ test lowCostRegex (name_as_text proxy) = false.
Proof.
  unfold has_name, classify, name_or_empty, name_as_text.
  destruct (name proxy) as [[|c s]|]; [| discriminate |]; intros _; split; reflexivity.
Qed.

Lemma fold_count_proxy_named (l : list Proxy) (countryCounts : Obj Z) :
  fold_left count_proxy l countryCounts
  = fold_left count_proxy (filter has_name l) countryCounts.
Proof.
  revert countryCounts.
  induction l as [|proxy l IH]; intros countryCounts; simpl; [reflexivity|].
  destruct (has_name proxy) eqn:E; simpl; [apply IH|].
  rewrite count_proxy_classify.
  destruct (unnamed_not_classified proxy E) as [-> _]. apply IH.
Qed.

(** X6. A proxy without a name, or with the empty name, is counted under
    no region and never makes the configuration low-cost: leaving such
    proxies out changes neither result. *)
Theorem unnamed_proxies_are_ignored (l : list Proxy) :
  parseCountries (mkConfig (Some l))
  = parseCountries (mkConfig (Some (filter has_name l)))
  /\ hasLowCost (mkConfig (Some l)) = hasLowCost (mkConfig (Some (filter has_name l)))
  /\ (forall proxy, has_name proxy = false ->
                    forall countryCounts : Obj Z,
                      count_proxy countryCounts proxy = countryCounts).
Proof.
  split; [|split].
  - unfold parseCountries; cbn [proxies_or_empty proxies].
    now rewrite fold_count_proxy_named.
  - unfold hasLowCost; cbn [proxies_or_empty proxies].
    induction l as [|proxy l IH]; simpl; [reflexivity|].
    destruct (has_name proxy) eqn:E; simpl; [now rewrite IH|].
    destruct (unnamed_not_classified proxy E) as [_ ->]. exact IH.
  - intros proxy E countryCounts. rewrite count_proxy_classify.
    now destruct (unnamed_not_classified proxy E) as [-> _].
Qed.

(** ** Further properties: what the patterns match *)

Lemma test_occurs (re : RegExp) (s : string) :
  test re s = true
  <-> exists pre rest, s = (pre ++ rest)%string /\ match_any_here re rest = true.
Proof.
  induction s as [|c s IH]; cbn [test].
  - rewrite orb_false_r. split.
    + intros H. now exists EmptyString, EmptyString.
    + intros (pre & rest & E & H). destruct pre; [|discriminate E].
      simpl in E. now subst rest.
  - rewrite orb_true_iff, IH. split.
    + intros [H | (pre & rest & -> & H)].
      * now exists EmptyString, (String c s).
      * now exists (String c pre), rest.
    + intros (pre & rest & E & H). destruct pre as [|c' pre]; simpl in E.
      * left. now subst rest.
      * injection E as <- ->. right. now exists pre, rest.
Qed.

Lemma match_here_literal (k s : string) :
  match_here false (literal k) s = true <-> exists post, s = (k ++ post)%string.
Proof.
  revert s. unfold literal.
  induction k as [|a k IH]; intros s; cbn [list_ascii_of_string map match_here].
  - split; [intros _; now exists s | reflexivity].
  - destruct s as [|c s].
    + split; [discriminate | intros [post E]; discriminate E].
    + cbn [atom_accepts fold_case]. rewrite andb_true_iff, IH, Ascii.eqb_eq. split.
      * intros [-> [post ->]]. now exists post.
      * intros [post E]. simpl in E. injection E as -> ->. split; [reflexivity|].
        now exists post.
Qed.

Lemma occurs_in_split (k pre rest : string) :
  (exists post, rest = (k ++ post)%string) -> occurs_in k (pre ++ rest).
Proof. intros [post ->]. now exists pre, post. Qed.

Lemma test_new_RegExp (pattern s : string) :
  test (new_RegExp pattern) s = true
  <-> exists k, In k (split_on "|"%char pattern) /\ occurs_in k s.
Proof.
  rewrite test_occurs. unfold match_any_here, new_RegExp.
  cbn [alternatives ignoreCase]. split.
  - intros (pre & rest & -> & H). apply existsb_exists in H as (p & Hp & Hm).
    apply in_map_iff in Hp as (k & <- & Hk). exists k. split; [exact Hk|].
    apply occurs_in_split. now apply match_here_literal.
  - intros (k & Hk & pre & post & ->). exists pre, (k ++ post)%string.
    split; [reflexivity|]. apply existsb_exists. exists (literal k).
    split; [now apply in_map|]. apply match_here_literal. now exists post.
Qed.

(** X7. A region's compiled pattern matches a name exactly when one of
    the alternatives of the catalog pattern, the pieces between the bars,
    occurs in the name as written: the match is a case-sensitive search
    for a keyword anywhere in the name. *)
Theorem region_pattern_is_keyword_search (c : string) (regex : RegExp) :
  In (c, regex) compiledRegex ->
  exists meta,
    obj_get c countriesMeta = Some meta
    /\ forall name,
        test regex name = true
        <-> exists k, In k (split_on "|"%char (pattern meta)) /\ occurs_in k name.
Proof.
  rewrite compiledRegex_catalog, in_map_iff.
  intros ([c' meta] & [= <- <-] & Hin). exists meta. split.
  - apply In_obj_get; [exact catalog_keys_NoDup | exact Hin].
  - intros name. apply test_new_RegExp.
Qed.

Lemma region_pattern_is_keyword_search_witness :
  In ("台湾", new_RegExp "台|新北|彰化|TW|Taiwan|🇹🇼") compiledRegex
  /\ exists meta, obj_get "台湾" countriesMeta = Some meta.
Proof.
  assert (H : In ("台湾", new_RegExp "台|新北|彰化|TW|Taiwan|🇹🇼") compiledRegex)
    by (right; right; left; reflexivity).
  split; [exact H|].
  destruct (region_pattern_is_keyword_search H) as (meta & Hm & _).
  now exists meta.
Defined.

Lemma fold_not_letter (b c : ascii) :
  not_letter b = true ->
  Ascii.eqb (lower_ascii b) (lower_ascii c) = Ascii.eqb b c.
Proof.
  unfold not_letter, lower_ascii. cbv zeta. intros Hb.
  apply andb_true_iff in Hb as [Hu Hl].
  apply negb_true_iff in Hu. apply negb_true_iff in Hl. rewrite Hu.
  destruct ((65 <=? nat_of_ascii c)%nat && (nat_of_ascii c <=? 90)%nat) eqn:Hc;
    [|reflexivity].
  apply andb_true_iff in Hc as [Hc1 Hc2].
  apply Nat.leb_le in Hc1. apply Nat.leb_le in Hc2.
  assert (Hne : b <> c).
  { intros ->. apply andb_false_iff in Hu as [Hu|Hu]; apply Nat.leb_gt in Hu; lia. }
  assert (Hne' : b <> ascii_of_nat (nat_of_ascii c + 32)).
  { intros ->. rewrite nat_ascii_embedding in Hl by lia.
    apply andb_false_iff in Hl as [Hl|Hl]; apply Nat.leb_gt in Hl; lia. }
  apply Ascii.eqb_neq in Hne. apply Ascii.eqb_neq in Hne'. congruence.
Qed.

Lemma match_here_caseless (k s : string) :
  forallb not_letter (list_ascii_of_string k) = true ->
  match_here true (literal k) s = true <-> exists post, s = (k ++ post)%string.
Proof.
  revert s. unfold literal.
  induction k as [|a k IH]; intros s Hk; cbn [list_ascii_of_string map match_here].
  - split; [intros _; now exists s | reflexivity].
  - cbn [list_ascii_of_string forallb] in Hk. apply andb_true_iff in Hk as [Ha Hk].
    destruct s as [|c s].
    + split; [discriminate | intros [post E]; discriminate E].
    + cbn [atom_accepts fold_case].
      rewrite (@fold_not_letter a c Ha), andb_true_iff, (IH s Hk), Ascii.eqb_eq. split.
      * intros [-> [post ->]]. now exists post.
      * intros [post E]. simpl in E. injection E as -> ->. split; [reflexivity|].
        now exists post.
Qed.

Lemma digit_class (d : ascii) :
  (nat_of_ascii "0" <=? nat_of_ascii d)%nat && (nat_of_ascii d <=? nat_of_ascii "5")%nat
  = true
  <-> In d digits_0_to_5.
Proof.
  destruct d as [[] [] [] [] [] [] [] []]; vm_compute;
    (split; [intros H; first [discriminate H | tauto]
            | intros H; first [reflexivity
                              | repeat (destruct H as [H|H]; [discriminate H|]);
                                destruct H]]).
Qed.

Lemma match_here_fraction (s : string) :
  match_here true [Chr "0"; Chr "."; Class "0" "5"] s = true
  <-> exists d post, In d digits_0_to_5 /\ s = ("0." ++ String d post)%string.
Proof.
  destruct s as [|a [|b [|d post]]]; cbn [match_here];
    try (split; [rewrite ?andb_false_r; discriminate
                | intros (d' & post' & _ & E); discriminate E]).
  cbn [atom_accepts fold_case].
  rewrite (@fold_not_letter "0" a eq_refl), (@fold_not_letter "." b eq_refl).
  rewrite andb_true_r, andb_true_iff, andb_true_iff, digit_class, !Ascii.eqb_eq. split.
  - intros (<- & <- & Hd). now exists d, post.
  - intros (d' & post' & Hd & E). simpl in E. injection E as -> -> -> ->. tauto.
Qed.

Lemma test_lowCostRegex (s : string) :
  test lowCostRegex s = true
  <-> (exists k, In k low_cost_keywords /\ occurs_in k s)
      \/ (exists d, In d digits_0_to_5 /\ occurs_in ("0." ++ String d "") s).
Proof.
  rewrite test_occurs. unfold match_any_here, lowCostRegex.
  cbn [alternatives ignoreCase existsb]. split.
  - intros (pre & rest & -> & H).
    rewrite orb_false_r, !orb_true_iff in H.
    rewrite match_here_fraction, !match_here_caseless in H by reflexivity.
    destruct H as [(d & post & Hd & ->) | H].
    + right. exists d. split; [exact Hd|]. now exists pre, post.
    + left. unfold low_cost_keywords.
      destruct H as [H|[H|[H|H]]]; eexists; (split; [|apply occurs_in_split; exact H]);
        simpl; tauto.
  - intros [(k & Hk & pre & post & ->) | (d & Hd & pre & post & ->)].
    + exists pre, (k ++ post)%string. split; [reflexivity|].
      rewrite orb_false_r, !orb_true_iff, !match_here_caseless by reflexivity.
      right. unfold low_cost_keywords in Hk. simpl in Hk.
      destruct Hk as [<-|[<-|[<-|[<-|[]]]]]; [left | right; left | right; right; left
                                              | right; right; right]; now exists post.
    + exists pre, ("0." ++ String d post)%string. split; [reflexivity|].
      rewrite !orb_true_iff, match_here_fraction. left. now exists d, post.
Qed.

(** X8. The configuration is low-cost exactly when the name of some proxy
    contains one of the keywords 低倍率, 省流, 大流量, 实验性, or [0.]
    followed by a digit from 0 to 5, anywhere in the name. *)
Theorem hasLowCost_is_keyword_search (config : Config) :
  hasLowCost config = true
  <-> exists proxy s,
      In proxy (proxies_or_empty config)
      /\ name proxy = Some s
      /\ ((exists k, In k low_cost_keywords /\ occurs_in k s)
          \/ (exists d, In d digits_0_to_5 /\ occurs_in ("0." ++ String d "") s)).
Proof.
  unfold hasLowCost. rewrite existsb_exists. split.
  - intros (proxy & Hin & H). unfold name_as_text in H.
    destruct (name proxy) as [s|] eqn:E; [|discriminate H].
    exists proxy, s. repeat split; [exact Hin | exact E |]. now apply test_lowCostRegex.
  - intros (proxy & s & Hin & E & H). exists proxy. split; [exact Hin|].
    unfold name_as_text. rewrite E. now apply test_lowCostRegex.
Qed.

(** ** Further properties: arguments, names and the store *)




Lemma match_at_end_sound (suffix s stem : string) :
  match_at_end suffix s = Some stem -> s = (stem ++ suffix)%string.
Proof.
  revert stem. induction s as [|c s IH]; intros stem; cbn [match_at_end].
  - destruct (String.eqb_spec EmptyString suffix) as [<-|_]; [|discriminate].
    now intros [= <-].
  - destruct (String.eqb_spec (String c s) suffix) as [<-|_].
    + now intros [= <-].
    + destruct (match_at_end suffix s) as [stem'|]; [|discriminate].
      simpl. intros [= <-]. simpl. f_equal. now apply IH.
Qed.

(** X2. Removing the group suffix undoes adding it: [stripNodeSuffix]
    gives back the regions whose names [getCountryGroupNames] built, one
    suffix is removed even from a name that ends in two, and a name that
    does not end in the suffix is left as it is. *)
Theorem stripNodeSuffix_undoes_group_names :
  (forall countryInfo minCount,
      stripNodeSuffix (getCountryGroupNames countryInfo minCount)
      = map country (filter (fun item => (count item >=? minCount)%Z) countryInfo))
  /\ (forall stem, stripNodeSuffix [ (stem ++ NODE_SUFFIX)%string ] = [ stem ])
  /\ (forall name,
         (forall stem, name <> (stem ++ NODE_SUFFIX)%string) ->
         stripNodeSuffix [ name ] = [ name ]).
Proof.
  split; [|split].
  - intros countryInfo minCount. unfold getCountryGroupNames.
    rewrite <- (map_map country (fun c => (c ++ NODE_SUFFIX)%string)).
    apply stripNodeSuffix_names.
  - intros stem. exact (stripNodeSuffix_names [stem]).
  - intros name H. unfold stripNodeSuffix. cbn [map].
    destruct (match_at_end NODE_SUFFIX name) as [stem|] eqn:E; [|reflexivity].
    apply match_at_end_sound in E. now apply H in E.
Qed.

Lemma filter_all {A : Type} (f : A -> bool) (l : list A) :
  (forall x, In x l -> f x = true) -> filter f l = l.
Proof.
  induction l as [|a l IH]; intros H; simpl; [reflexivity|].
  rewrite (H a) by now left. f_equal. apply IH. intros x Hx. apply H. now right.
Qed.

(** The pools [main] builds bear the selected names, in order. *)
Lemma main_pool_names (flags : Flags) (config : Config) :
  map (fun g => prop g "name") (countryProxyGroups_of flags config)
  = map VStr (countryGroupNames_of flags config).
Proof.
  unfold countryProxyGroups_of. rewrite pool_names, filter_all.
  - rewrite countries_of_selected.
    unfold countryGroupNames_of, getCountryGroupNames. now rewrite !map_map.
  - intros c Hc. apply countries_of_in_catalog in Hc as [meta ->]. reflexivity.
Qed.

Lemma main_pool_group_names (flags : Flags) (config : Config) :
  map group_name (countryProxyGroups_of flags config)
  = map Some (countryGroupNames_of flags config).
Proof.
  pose proof (main_pool_names flags config) as H.
  revert H. generalize (countryGroupNames_of flags config).
  induction (countryProxyGroups_of flags config) as [|g l IH];
    intros [|s ns] H; try discriminate H; [reflexivity|].
  injection H as Hg Hl. simpl. rewrite (IH _ Hl).
  apply group_name_prop in Hg. now rewrite Hg.
Qed.

(** X19. With a threshold of at most 1, as by default, no region is
    hidden: every region [parseCountries] reports is a selector name and
    has its pool, in the reported order. *)
Theorem low_threshold_hides_no_region (flags : Flags) (config : Config) :
  (countryThreshold flags <= 1)%Z ->
  countryGroupNames_of flags config
  = map (fun item => (country item ++ NODE_SUFFIX)%string) (parseCountries config)
  /\ map group_name (countryProxyGroups_of flags config)
     = map (fun item => Some (country item ++ NODE_SUFFIX)%string)
           (parseCountries config).
Proof.
  intros Hle.
  assert (E : countryGroupNames_of flags config
              = map (fun item => (country item ++ NODE_SUFFIX)%string)
                    (parseCountries config)).
  { unfold countryGroupNames_of, getCountryGroupNames. rewrite filter_all; [reflexivity|].
    intros [c n] Hin. apply parseCountries_tally in Hin as [_ Hpos].
    simpl. apply Z.geb_le. lia. }
  split; [exact E|]. rewrite main_pool_group_names, E. now rewrite map_map.
Qed.

Lemma low_threshold_hides_no_region_witness :
  (countryThreshold default_flags <= 1)%Z
  /\ countryGroupNames_of default_flags scenario = [ "香港节点"; "美国节点" ].
Proof.
  assert (H : (countryThreshold default_flags <= 1)%Z) by (simpl; lia).
  split; [exact H|].
  rewrite (proj1 (@low_threshold_hides_no_region default_flags scenario H)).
  reflexivity.
Defined.

(** X13. [buildRules] never writes to an array that exists when it is
    called: it returns a reference to a new array, the store grows by that
    one array and every other array keeps its elements.  The new array
    holds the elements of [baseRules], after the QUIC block unless QUIC is
    enabled. *)
Theorem buildRules_allocates_fresh_array (quicEnabled : bool) (h : Heap) :
  let ruleList := fst (buildRules quicEnabled h) in
  let h' := snd (buildRules quicEnabled h) in
  ruleList = length h
  /\ length h' = S (length h)
  /\ (forall r, (r < length h)%nat -> nth_error h' r = nth_error h r)
  /\ deref h' ruleList
     = if quicEnabled then deref h baseRules else QUIC_BLOCK :: deref h baseRules.
Proof.
  unfold buildRules, spread, alloc, unshift. cbn [fst snd].
  assert (Happ : forall a r, (r < length h)%nat ->
                             nth_error (h ++ [a]) r = nth_error h r)
    by (intros a r Hr; now apply nth_error_app1).
  assert (Hlast : forall a, deref (h ++ [a]) (length h) = a)
    by (intros a; unfold deref; apply nth_last).
  destruct quicEnabled; cbn [negb fst snd].
  - repeat split; [rewrite length_app; simpl; lia | apply Happ | apply Hlast].
  - rewrite Hlast, assign_last.
    repeat split; [rewrite length_app; simpl; lia | apply Happ | apply Hlast].
Qed.

(** ** Further properties: the selector lists *)

Lemma filter_Boolean_names (l : list string) :
  filter_Boolean (map EName l) = filter (fun s => negb (String.eqb s "")) l.
Proof.
  unfold filter_Boolean. induction l as [|s l IH]; simpl; [reflexivity|].
  rewrite IH. now destruct (String.eqb s "").
Qed.

Lemma buildList_kept (elements : list ListElement) :
  buildList elements = flat_map kept elements.
Proof.
  unfold buildList, flat.
  induction elements as [|e elements IH]; [reflexivity|].
  cbn [flat_map]. unfold filter_Boolean at 1. rewrite flat_map_app.
  fold (filter_Boolean (flat_map (fun e0 => match e0 with
                                            | ENames l => map EName l
                                            | _ => [e0]
                                            end) elements)).
  rewrite IH. f_equal. destruct e as [s| |l]; cbn [kept].
  - cbn [flat_map]. now rewrite app_nil_r.
  - reflexivity.
  - apply filter_Boolean_names.
Qed.

(** X17. Each of the four base lists is its fixed names around the region
    names, in the order written: a disabled entry leaves no gap, and a
    region name that is the empty text is dropped. *)
Theorem buildBaseLists_composition (landing lowCost : bool)
        (countryGroupNames : list string) :
  let lists := buildBaseLists landing lowCost countryGroupNames in
  let regions := filter (fun s => negb (String.eqb s "")) countryGroupNames in
  let landingHub := if landing then [ PROXY_GROUPS.LANDING ] else [] in
  let lowCostHub := if lowCost then [ PROXY_GROUPS.LOW_COST ] else [] in
  defaultSelector lists
  = [ PROXY_GROUPS.FALLBACK ] ++ landingHub ++ regions ++ lowCostHub
    ++ [ PROXY_GROUPS.MANUAL; "DIRECT" ]
  /\ defaultProxies lists
     = [ PROXY_GROUPS.SELECT ] ++ regions ++ lowCostHub
       ++ [ PROXY_GROUPS.MANUAL; PROXY_GROUPS.DIRECT ]
  /\ defaultProxiesDirect lists
     = [ PROXY_GROUPS.DIRECT ] ++ regions ++ lowCostHub
       ++ [ PROXY_GROUPS.SELECT; PROXY_GROUPS.MANUAL ]
  /\ defaultFallback lists
     = landingHub ++ regions ++ lowCostHub ++ [ PROXY_GROUPS.MANUAL; "DIRECT" ].
Proof.
  unfold buildBaseLists.
  cbn [defaultSelector defaultProxies defaultProxiesDirect defaultFallback].
  rewrite !buildList_kept.
  destruct landing, lowCost; repeat split; reflexivity.
Qed.

Lemma group_names_nonempty (countryInfo : list RegionCount) (minCount : Z) :
  filter (fun s => negb (String.eqb s ""))
         (getCountryGroupNames countryInfo minCount)
  = getCountryGroupNames countryInfo minCount.
Proof.
  apply filter_all. intros s Hs. unfold getCountryGroupNames in Hs.
  apply in_map_iff in Hs as (item & <- & _).
  apply negb_true_iff, String.eqb_neq. intros E.
  apply (f_equal String.length) in E. rewrite length_append in E. simpl in E. lia.
Qed.

(** The lists of [main], written out. *)
Lemma main_lists (flags : Flags) (config : Config) :
  let regions := countryGroupNames_of flags config in
  let landingHub := if landing flags then [ PROXY_GROUPS.LANDING ] else [] in
  let lowCostHub := if hasLowCost config then [ PROXY_GROUPS.LOW_COST ] else [] in
  defaultSelector (lists_of flags config)
  = [ PROXY_GROUPS.FALLBACK ] ++ landingHub ++ regions ++ lowCostHub
    ++ [ PROXY_GROUPS.MANUAL; "DIRECT" ]
  /\ defaultProxies (lists_of flags config)
     = [ PROXY_GROUPS.SELECT ] ++ regions ++ lowCostHub
       ++ [ PROXY_GROUPS.MANUAL; PROXY_GROUPS.DIRECT ]
  /\ defaultProxiesDirect (lists_of flags config)
     = [ PROXY_GROUPS.DIRECT ] ++ regions ++ lowCostHub
       ++ [ PROXY_GROUPS.SELECT; PROXY_GROUPS.MANUAL ]
  /\ defaultFallback (lists_of flags config)
     = landingHub ++ regions ++ lowCostHub ++ [ PROXY_GROUPS.MANUAL; "DIRECT" ].
Proof.
  cbv zeta. unfold lists_of, buildBaseLists.
  cbn [defaultSelector defaultProxies defaultProxiesDirect defaultFallback].
  rewrite !buildList_kept. cbn [flat_map kept].
  unfold countryGroupNames_of. rewrite group_names_nonempty.
  destruct (landing flags), (hasLowCost config); repeat split; reflexivity.
Qed.

(** ** Further properties: the reference graph of the groups *)

Lemma pool_no_members (countries : list string) (landing loadBalance : bool)
      (g : Obj Value) :
  In g (buildCountryProxyGroups countries landing loadBalance) ->
  group_members g = [].
Proof.
  unfold buildCountryProxyGroups. cbv zeta. rewrite in_flat_map.
  intros (c & _ & Hg).
  destruct (countriesMeta_at c); [|destruct Hg].
  destruct Hg as [<-|[]]. now destruct loadBalance.
Qed.

Ltac member_of_lists Hm :=
  solve [ apply in_or_app; left; exact Hm
        | apply in_or_app; right; apply in_or_app; left; exact Hm
        | apply in_or_app; right; apply in_or_app; right;
          unfold PROXY_GROUPS.DIRECT in *; simpl in Hm |- *; tauto ].

Ltac service_name :=
  unfold service_names; solve [repeat (first [left; reflexivity | right])].

(** What the groups written out by [buildProxyGroups] list, group by
    group: a property [P name member] holds of all of them once it holds
    of the lists each kind of group is given. *)
Lemma hub_members_cases (P : string -> string -> Prop)
      (landing : bool) (countries : list string)
      (countryProxyGroups : list (Obj Value)) (lowCost : bool)
      (defaultProxies defaultProxiesDirect defaultSelector defaultFallback
       : list string) :
  (forall m, In m defaultSelector -> P PROXY_GROUPS.SELECT m) ->
  (forall m, In m defaultSelector ->
             m <> PROXY_GROUPS.LANDING -> m <> PROXY_GROUPS.FALLBACK ->
             P "前置代理" m) ->
  (forall m, In m defaultFallback -> P PROXY_GROUPS.FALLBACK m) ->
  (forall a m, In a service_names ->
               In m (defaultProxies ++ defaultProxiesDirect
                     ++ [ PROXY_GROUPS.DIRECT; "REJECT"; "REJECT-DROP" ]) ->
               P a m) ->
  (includes countries "台湾" = true -> includes countries "香港" = true ->
   forall m, In m [ PROXY_GROUPS.DIRECT; "台湾节点"; "香港节点" ] ->
             P "📺 哔哩哔哩" m) ->
  (forall m, In m [ "DIRECT"; PROXY_GROUPS.SELECT ] -> P PROXY_GROUPS.DIRECT m) ->
  forall g,
    In g (buildProxyGroups landing countries countryProxyGroups lowCost
                           defaultProxies defaultProxiesDirect
                           defaultSelector defaultFallback) ->
    In g countryProxyGroups
    \/ forall a m, prop g "name" = VStr a -> In m (group_members g) -> P a m.
Proof.
  intros Hsel Hfront Hfall Hsvc Hbili Hdirect g Hin.
  unfold buildProxyGroups in Hin. cbv zeta in Hin.
  unfold without_null in Hin. rewrite flat_map_app in Hin.
  apply in_app_or in Hin as [Hin|Hin].
  2:{ left. fold (without_null (map Some countryProxyGroups)) in Hin.
      now rewrite without_null_Some in Hin. }
  right. intros a m Ha Hm. unfold group_members in Hm.
  destruct landing, lowCost; cbn [flat_map app] in Hin;
    repeat (destruct Hin as [<-|Hin];
            [ lazy [prop obj_get String.eqb Ascii.eqb Bool.eqb] in Ha, Hm;
              injection Ha as <-;
              first
                [ solve [ destruct Hm ]
                | solve [ rewrite texts_names in Hm;
                          first [ now apply Hsel
                                | now apply Hfall
                                | now apply Hdirect
                                | apply filter_In in Hm as [Hm Hf];
                                  apply andb_true_iff in Hf as [Hf1 Hf2];
                                  apply negb_true_iff, String.eqb_neq in Hf1;
                                  apply negb_true_iff, String.eqb_neq in Hf2;
                                  now apply Hfront
                                | apply Hsvc; [service_name | member_of_lists Hm] ] ]
                | solve [ destruct (includes countries "台湾") eqn:HTW,
                                   (includes countries "香港") eqn:HHK;
                          cbn [andb] in Hm; rewrite texts_names in Hm;
                          first [ now apply Hbili
                                | apply Hsvc; [service_name | member_of_lists Hm] ] ] ]
            |]);
    destruct Hin.
Qed.

Lemma names_to_group_names (l : list (Obj Value)) (ns : list string) :
  map (fun g => prop g "name") l = map VStr ns ->
  map group_name l = map Some ns.
Proof.
  revert ns. induction l as [|g l IH]; intros [|s ns] H; try discriminate H;
    [reflexivity|].
  injection H as Hg Hl. simpl. rewrite (IH _ Hl).
  apply group_name_prop in Hg. now rewrite Hg.
Qed.

Lemma countryGroupNames_of_countries (flags : Flags) (config : Config) :
  countryGroupNames_of flags config
  = map (fun c => (c ++ NODE_SUFFIX)%string) (countries_of flags config).
Proof.
  rewrite countries_of_selected. unfold countryGroupNames_of, getCountryGroupNames.
  now rewrite map_map.
Qed.

(** The names of the emitted groups, in order. *)
Lemma emitted_names (flags : Flags) (config : Config) (h : Heap) :
  map group_name (proxy_groups (fst (main flags config h)))
  = map Some (hub_names (landing flags) (hasLowCost config)
              ++ countryGroupNames_of flags config ++ [ "GLOBAL" ]).
Proof.
  destruct (emitted_groups flags config h) as (hubs & G & -> & Hnames & HG & _).
  rewrite !map_app. f_equal; [|f_equal].
  - now apply names_to_group_names.
  - apply main_pool_group_names.
  - simpl. apply group_name_prop in HG. now rewrite HG.
Qed.

Lemma emitted_name_iff (flags : Flags) (config : Config) (h : Heap) (s : string) :
  (exists g, In g (proxy_groups (fst (main flags config h))) /\ group_name g = Some s)
  <-> In s (hub_names (landing flags) (hasLowCost config)
            ++ countryGroupNames_of flags config ++ [ "GLOBAL" ]).
Proof.
  split.
  - intros (g & Hin & Hname).
    apply (in_map group_name) in Hin. rewrite emitted_names, Hname in Hin.
    apply in_map_iff in Hin as (s' & [= ->] & Hin). exact Hin.
  - intros Hin. apply (in_map Some) in Hin. rewrite <- (emitted_names flags config h) in Hin.
    apply in_map_iff in Hin as (g & Hname & Hin). now exists g.
Qed.

Lemma distinct_NoDup (l : list string) : distinct l = true -> NoDup l.
Proof.
  induction l as [|x l IH]; simpl; [constructor|].
  intros H. apply andb_true_iff in H as [Hx Hl]. constructor; [|now apply IH].
  intros Hin. apply negb_true_iff in Hx.
  assert (E : existsb (String.eqb x) l = true)
    by (apply existsb_exists; exists x; split; [exact Hin | apply String.eqb_refl]).
  congruence.
Qed.

(** Regions stay distinct when entries below a threshold are left out. *)
Lemma selected_countries_NoDup (countryInfo : list RegionCount) (minCount : Z) :
  NoDup (map country countryInfo) ->
  NoDup (map country
             (filter (fun item => (count item >=? minCount)%Z) countryInfo)).
Proof.
  induction countryInfo as [|item rest IH]; intros Hnd; cbn [filter map];
    [constructor|].
  cbn [map] in Hnd. apply NoDup_cons_iff in Hnd as [Hfresh Hrest].
  destruct (count item >=? minCount)%Z; [|exact (IH Hrest)].
  cbn [map]. apply NoDup_cons; [|exact (IH Hrest)].
  intros Hin. apply Hfresh.
  apply in_map_iff in Hin as (other & Hsame & Hother).
  apply filter_In in Hother as [Hother _].
  rewrite <- Hsame. now apply in_map.
Qed.

Lemma NoDup_map_suffix (l : list string) :
  NoDup l -> NoDup (map (fun c => (c ++ NODE_SUFFIX)%string) l).
Proof.
  induction 1 as [|c l Hnot Hnd IH]; simpl; constructor; [|exact IH].
  intros Hin. apply in_map_iff in Hin as (c' & E & Hc').
  apply append_suffix_inj in E. now subst c'.
Qed.

Lemma region_names_not_hubs (flags : Flags) (config : Config)
      (landing lowCost : bool) (s : string) :
  In s (countryGroupNames_of flags config) -> ~ In s (hub_names landing lowCost).
Proof.
  rewrite countryGroupNames_of_countries, in_map_iff.
  intros (c & <- & Hc) Hhub.
  apply countries_of_in_catalog in Hc as [meta Hmeta].
  apply hub_names_regions in Hhub as [-> | ->]; discriminate Hmeta.
Qed.

Lemma region_names_not_GLOBAL (flags : Flags) (config : Config) :
  ~ In "GLOBAL" (countryGroupNames_of flags config).
Proof.
  rewrite countryGroupNames_of_countries, in_map_iff. intros (c & E & _).
  symmetry in E. revert E. now apply not_a_region_name.
Qed.

(** X10. The emitted groups are, in order, the groups [buildProxyGroups]
    writes out, one pool per selected region under the region's selector
    name, and [GLOBAL]; no two emitted groups have the same name. *)
Theorem emitted_group_names_are_unique (flags : Flags) (config : Config) (h : Heap) :
  let emitted := hub_names (landing flags) (hasLowCost config)
                 ++ countryGroupNames_of flags config ++ [ "GLOBAL" ] in
  map group_name (proxy_groups (fst (main flags config h))) = map Some emitted
  /\ NoDup emitted.
Proof.
  split; [apply emitted_names|].
  apply NoDup_app; [| apply NoDup_app |].
  - apply distinct_NoDup. now destruct (landing flags), (hasLowCost config).
  - rewrite countryGroupNames_of_countries, countries_of_selected.
    apply NoDup_map_suffix, selected_countries_NoDup, parseCountries_NoDup.
  - repeat constructor. intros [].
  - intros s Hs [<-|[]]. now apply region_names_not_GLOBAL in Hs.
  - intros s Hhub Hs. apply in_app_or in Hs as [Hs|[<-|[]]].
    + exact (@region_names_not_hubs flags config _ _ s Hs Hhub).
    + now apply hub_names_no_GLOBAL in Hhub.
Qed.

Ltac in_list := simpl; solve [repeat (first [left; reflexivity | right])].

Lemma hub_names_grow (landing lowCost : bool) (s : string) :
  In s (hub_names false false) -> In s (hub_names landing lowCost).
Proof.
  intros H. simpl in H.
  repeat (destruct H as [H|H];
          [rewrite <- H; clear H; destruct landing, lowCost; in_list|]).
  destruct H.
Qed.

(** Every name a group of [main] lists is a builtin policy or the name of
    an emitted group. *)
Lemma members_resolve (flags : Flags) (config : Config) (h : Heap)
      (g : Obj Value) (m : string) :
  In g (proxy_groups (fst (main flags config h))) ->
  In m (group_members g) ->
  In m builtin_policies
  \/ In m (hub_names (landing flags) (hasLowCost config)
           ++ countryGroupNames_of flags config ++ [ "GLOBAL" ]).
Proof.
  set (E := hub_names (landing flags) (hasLowCost config)
            ++ countryGroupNames_of flags config ++ [ "GLOBAL" ]).
  assert (Hhub : forall s, In s (hub_names false false) -> In s E).
  { intros s Hs. apply in_or_app. left. now apply hub_names_grow. }
  assert (Hreg : forall s, In s (countryGroupNames_of flags config) -> In s E).
  { intros s Hs. apply in_or_app. right. apply in_or_app. now left. }
  assert (Hland : forall s, In s (if landing flags then [PROXY_GROUPS.LANDING] else [])
                            -> In s E).
  { intros s Hs. apply in_or_app. left.
    destruct (landing flags); [|destruct Hs]. destruct Hs as [<-|[]].
    destruct (hasLowCost config); in_list. }
  assert (Hlow : forall s, In s (if hasLowCost config then [PROXY_GROUPS.LOW_COST] else [])
                           -> In s E).
  { intros s Hs. apply in_or_app. left.
    destruct (hasLowCost config); [|destruct Hs]. destruct Hs as [<-|[]].
    destruct (landing flags); in_list. }
  destruct (main_lists flags config) as (Hds & Hdp & Hdpd & Hdf).
  assert (Hlist : forall s,
             In s (defaultSelector (lists_of flags config))
             \/ In s (defaultProxies (lists_of flags config))
             \/ In s (defaultProxiesDirect (lists_of flags config))
             \/ In s (defaultFallback (lists_of flags config)) ->
             In s builtin_policies \/ In s E).
  { rewrite Hds, Hdp, Hdpd, Hdf. intros s [Hs|[Hs|[Hs|Hs]]];
      repeat (apply in_app_or in Hs as [Hs|Hs]);
      first [ right; now apply Hreg | right; now apply Hland | right; now apply Hlow
            | simpl in Hs;
              repeat (destruct Hs as [<-|Hs];
                      [first [ left; in_list | right; apply Hhub; in_list ]|]);
              destruct Hs ]. }
  rewrite main_proxy_groups. intros Hin Hm.
  apply in_app_or in Hin as [Hin|[<-|[]]].
  - unfold built_groups in Hin. cbv zeta in Hin. revert m Hm.
    assert (Hcases : In g (countryProxyGroups_of flags config)
                     \/ forall a m, prop g "name" = VStr a -> In m (group_members g) ->
                                    In m builtin_policies \/ In m E).
    { apply (hub_members_cases
               (fun _ m => In m builtin_policies \/ In m E)) with (7 := Hin).
      - intros m Hm. apply Hlist. tauto.
      - intros m Hm _ _. apply Hlist. tauto.
      - intros m Hm. apply Hlist. tauto.
      - intros a m _ Hm. apply in_app_or in Hm as [Hm|Hm]; [apply Hlist; tauto|].
        apply in_app_or in Hm as [Hm|Hm]; [apply Hlist; tauto|].
        simpl in Hm. destruct Hm as [<-|[<-|[<-|[]]]];
          [right; apply Hhub; in_list | left; in_list | left; in_list].
      - intros HTW HHK m Hm. right.
        assert (Hc : forall c, includes (countries_of flags config) c = true ->
                               In (c ++ NODE_SUFFIX)%string
                                  (countryGroupNames_of flags config)).
        { intros c Hc. unfold includes in Hc. apply existsb_exists in Hc as (c' & Hc' & E').
          apply String.eqb_eq in E'. subst c'.
          rewrite countryGroupNames_of_countries.
          now apply (in_map (fun c => (c ++ NODE_SUFFIX)%string)). }
        destruct Hm as [<-|[<-|[<-|[]]]];
          [apply Hhub; in_list | apply Hreg, (Hc "台湾" HTW)
           | apply Hreg, (Hc "香港" HHK)].
      - intros m Hm. destruct Hm as [<-|[<-|[]]];
          [left; in_list | right; apply Hhub; in_list]. }
    destruct Hcases as [Hpool|Hhubs].
    + intros m Hm. apply pool_no_members in Hpool. rewrite Hpool in Hm. destruct Hm.
    + destruct (built_groups_names flags config) as (pooled & _ & Hnames).
      assert (Hg : In (prop g "name")
                      (map (fun g0 => prop g0 "name") (built_groups flags config)))
        by now apply (in_map (fun g0 => prop g0 "name")).
      rewrite Hnames in Hg. apply in_map_iff in Hg as (a & Ha & _).
      intros m Hm. now apply (Hhubs a m).
  - change (In m (texts (VArr (map (fun item => prop item "name")
                                    (built_groups flags config))))) in Hm.
    destruct (built_groups_names flags config) as (pooled & Hpooled & Hnames).
    rewrite Hnames in Hm.
    fold (names (hub_names (landing flags) (hasLowCost config)
                 ++ map (fun c => (c ++ NODE_SUFFIX)%string) pooled)) in Hm.
    rewrite texts_names in Hm. right.
    apply in_app_or in Hm as [Hm|Hm]; [apply in_or_app; now left|].
    apply Hreg. rewrite countryGroupNames_of_countries.
    apply in_map_iff in Hm as (c & <- & Hc).
    apply (in_map (fun c => (c ++ NODE_SUFFIX)%string)). now apply Hpooled.
Qed.

(** X11. No emitted group refers to a name that does not exist: every
    member a group lists is one of the builtin policies DIRECT, REJECT and
    REJECT-DROP, or the name of an emitted group. *)
Theorem no_dangling_reference (flags : Flags) (config : Config) (h : Heap)
        (g : Obj Value) (m : string) :
  In g (proxy_groups (fst (main flags config h))) ->
  In m (group_members g) ->
  In m builtin_policies
  \/ exists g', In g' (proxy_groups (fst (main flags config h)))
                /\ group_name g' = Some m.
Proof.
  intros Hin Hm.
  destruct (@members_resolve flags config h g m Hin Hm) as [H|H]; [now left|].
  right. now apply emitted_name_iff.
Qed.

Lemma no_dangling_reference_witness :
  let groups := proxy_groups (fst (main default_flags scenario module_heap)) in
  let g := nth 0 groups [] in
  In g groups
  /\ In "美国节点" (group_members g)
  /\ exists g', In g' groups /\ group_name g' = Some "美国节点".
Proof.
  intros groups g.
  assert (Hin : In g groups) by (left; reflexivity).
  assert (Hm : In "美国节点" (group_members g)) by (right; right; left; reflexivity).
  split; [exact Hin|]. split; [exact Hm|].
  destruct (@no_dangling_reference default_flags scenario module_heap g "美国节点" Hin Hm)
    as [H|H]; [|exact H].
  exfalso. simpl in H. repeat (destruct H as [H|H]; [discriminate H|]). exact H.
Defined.

Lemma rank_region (flags : Flags) (config : Config) (s : string) :
  In s (countryGroupNames_of flags config) -> rank s = 0%nat.
Proof.
  rewrite countryGroupNames_of_countries, in_map_iff. intros (c & <- & _).
  assert (Hne : forall K, match_at_end NODE_SUFFIX K = None ->
                          String.eqb (c ++ NODE_SUFFIX) K = false).
  { intros K HK. apply String.eqb_neq. intros E. symmetry in E. revert E.
    now apply not_a_region_name. }
  unfold rank.
  rewrite !Hne by reflexivity. cbn [orb].
  destruct (existsb (String.eqb (c ++ NODE_SUFFIX)) service_names) eqn:E;
    [|reflexivity].
  exfalso. apply existsb_exists in E as (K & HK & EK).
  apply String.eqb_eq in EK. subst K. unfold service_names in HK. simpl in HK.
  repeat (destruct HK as [HK|HK]; [revert HK; now apply not_a_region_name|]).
  exact HK.
Qed.

Lemma rank_service (a : string) : In a service_names -> rank a = 4%nat.
Proof.
  unfold service_names. simpl. intros H.
  repeat (destruct H as [<-|H]; [reflexivity|]). destruct H.
Qed.

Lemma rank_at_most_4 (s : string) : s <> "GLOBAL" -> (rank s <= 4)%nat.
Proof.
  intros H. unfold rank. apply String.eqb_neq in H. rewrite H.
  repeat match goal with |- context [if ?b then _ else _] => destruct b end; lia.
Qed.

Ltac rank_of_list Hs Hreg :=
  repeat (apply in_app_or in Hs as [Hs|Hs]);
  first [ rewrite (Hreg _ Hs); lia
        | match type of Hs with
          | In _ (if ?b then _ else _) =>
              destruct b; simpl in Hs;
              repeat (destruct Hs as [<-|Hs]; [vm_compute; lia|]); destruct Hs
          end
        | simpl in Hs;
          repeat (destruct Hs as [<-|Hs]; [first [congruence | vm_compute; lia]|]);
          destruct Hs ].

(** Every member a group of [main] lists has a smaller height than the
    group. *)
Lemma members_rank (flags : Flags) (config : Config) (h : Heap)
      (g : Obj Value) (a m : string) :
  In g (proxy_groups (fst (main flags config h))) ->
  group_name g = Some a ->
  In m (group_members g) ->
  (rank m < rank a)%nat.
Proof.
  pose proof (@rank_region flags config) as Hreg.
  destruct (main_lists flags config) as (Hds & Hdp & Hdpd & Hdf).
  assert (Rds : forall s, In s (defaultSelector (lists_of flags config)) ->
                          (rank s <= 1)%nat)
    by (rewrite Hds; intros s Hs; rank_of_list Hs Hreg).
  assert (Rfront : forall s, In s (defaultSelector (lists_of flags config)) ->
                             s <> PROXY_GROUPS.LANDING -> s <> PROXY_GROUPS.FALLBACK ->
                             (rank s <= 0)%nat)
    by (rewrite Hds; intros s Hs Hl Hf; rank_of_list Hs Hreg).
  assert (Rdf : forall s, In s (defaultFallback (lists_of flags config)) ->
                          (rank s <= 0)%nat)
    by (rewrite Hdf; intros s Hs; rank_of_list Hs Hreg).
  assert (Rdp : forall s, In s (defaultProxies (lists_of flags config)) ->
                          (rank s <= 3)%nat)
    by (rewrite Hdp; intros s Hs; rank_of_list Hs Hreg).
  assert (Rdpd : forall s, In s (defaultProxiesDirect (lists_of flags config)) ->
                           (rank s <= 3)%nat)
    by (rewrite Hdpd; intros s Hs; rank_of_list Hs Hreg).
  rewrite main_proxy_groups. intros Hin Hname Hm.
  apply group_name_prop in Hname.
  apply in_app_or in Hin as [Hin|[<-|[]]].
  - unfold built_groups in Hin. cbv zeta in Hin.
    assert (Hcases : In g (countryProxyGroups_of flags config)
                     \/ forall a m, prop g "name" = VStr a -> In m (group_members g) ->
                                    (rank m < rank a)%nat).
    { apply (hub_members_cases (fun a m => (rank m < rank a)%nat)) with (7 := Hin).
      - intros s Hs. apply Rds in Hs. change (rank PROXY_GROUPS.SELECT) with 2%nat. lia.
      - intros s Hs Hl Hf. pose proof (Rfront s Hs Hl Hf).
        change (rank "前置代理") with 1%nat. lia.
      - intros s Hs. apply Rdf in Hs. change (rank PROXY_GROUPS.FALLBACK) with 1%nat. lia.
      - intros b s Hb Hs. rewrite (@rank_service b Hb).
        apply in_app_or in Hs as [Hs|Hs]; [apply Rdp in Hs; lia|].
        apply in_app_or in Hs as [Hs|Hs]; [apply Rdpd in Hs; lia|].
        simpl in Hs. repeat (destruct Hs as [<-|Hs]; [vm_compute; lia|]). destruct Hs.
      - intros _ _ s Hs. simpl in Hs.
        repeat (destruct Hs as [<-|Hs]; [vm_compute; lia|]). destruct Hs.
      - intros s Hs. simpl in Hs.
        repeat (destruct Hs as [<-|Hs]; [vm_compute; lia|]). destruct Hs. }
    destruct Hcases as [Hpool|Hhubs].
    + apply pool_no_members in Hpool. rewrite Hpool in Hm. destruct Hm.
    + now apply Hhubs.
  - change (VStr "GLOBAL" = VStr a) in Hname. injection Hname as <-.
    change (rank "GLOBAL") with 5%nat.
    enough ((rank m <= 4)%nat) by lia. apply rank_at_most_4. intros ->.
    change (In "GLOBAL" (texts (VArr (map (fun item => prop item "name")
                                          (built_groups flags config))))) in Hm.
    destruct (built_groups_names flags config) as (pooled & Hpooled & Hnames).
    rewrite Hnames in Hm.
    fold (names (hub_names (landing flags) (hasLowCost config)
                 ++ map (fun c => (c ++ NODE_SUFFIX)%string) pooled)) in Hm.
    rewrite texts_names in Hm.
    apply in_app_or in Hm as [Hm|Hm]; [now apply hub_names_no_GLOBAL in Hm|].
    apply in_map_iff in Hm as (c & E & _). symmetry in E. revert E.
    now apply not_a_region_name.
Qed.

Lemma reaches_rank (flags : Flags) (config : Config) (h : Heap) (a b : string) :
  reaches (proxy_groups (fst (main flags config h))) a b -> (rank b < rank a)%nat.
Proof.
  induction 1 as [a b (g & Hin & Hname & Hm) | a b c (g & Hin & Hname & Hm) _ IH].
  - exact (@members_rank flags config h g a b Hin Hname Hm).
  - pose proof (@members_rank flags config h g a b Hin Hname Hm). lia.
Qed.

(** X12. The references among the emitted groups form no cycle: following
    member lists from a group never leads back to that group, and in
    particular no group lists itself. *)
Theorem reference_graph_is_acyclic (flags : Flags) (config : Config) (h : Heap) :
  (forall a, ~ reaches (proxy_groups (fst (main flags config h))) a a)
  /\ (forall g a, In g (proxy_groups (fst (main flags config h))) ->
                  group_name g = Some a -> ~ In a (group_members g)).
Proof.
  split.
  - intros a H. apply reaches_rank in H. lia.
  - intros g a Hin Hname Hm.
    pose proof (@members_rank flags config h g a a Hin Hname Hm). lia.
Qed.

Lemma front_group_members (flags : Flags) (config : Config) (h : Heap)
      (g : Obj Value) :
  landing flags = true ->
  In g (proxy_groups (fst (main flags config h))) ->
  group_name g = Some "前置代理" ->
  prop g "proxies"
  = names (filter (fun name => negb (String.eqb name PROXY_GROUPS.LANDING)
                               && negb (String.eqb name PROXY_GROUPS.FALLBACK))
                  (defaultSelector (lists_of flags config))).
Proof.
  intros Hlanding Hin Hname.
  destruct (emitted_groups flags config h) as (hubs & G & E & Hnames & HG & Hfront).
  rewrite E in Hin. apply group_name_prop in Hname.
  apply in_app_or in Hin as [Hin|Hin]; [now apply Hfront|].
  apply in_app_or in Hin as [Hin|[<-|[]]].
  - apply pool_name in Hin as (c & _ & Hc & _).
    rewrite Hc in Hname. injection Hname as Hname. symmetry in Hname.
    exfalso. revert Hname. now apply not_a_region_name.
  - rewrite HG in Hname. discriminate Hname.
Qed.

(** X18. With landing enabled, the group 前置代理 offers exactly the
    members of the fallback group without the landing group: the selected
    region names, the low-cost group when there is one, the manual group
    and DIRECT. *)
Theorem front_proxy_members (flags : Flags) (config : Config) (h : Heap) :
  landing flags = true ->
  let members :=
    countryGroupNames_of flags config
    ++ (if hasLowCost config then [ PROXY_GROUPS.LOW_COST ] else [])
    ++ [ PROXY_GROUPS.MANUAL; "DIRECT" ] in
  defaultFallback (lists_of flags config) = PROXY_GROUPS.LANDING :: members
  /\ forall g, In g (proxy_groups (fst (main flags config h))) ->
               group_name g = Some "前置代理" ->
               group_members g = members.
Proof.
  intros Hlanding members.
  destruct (main_lists flags config) as (Hds & _ & _ & Hdf).
  rewrite Hlanding in Hds, Hdf. split; [exact Hdf|].
  intros g Hin Hname. unfold group_members.
  rewrite (@front_group_members flags config h g Hlanding Hin Hname), texts_names, Hds.
  cbn [app filter String.eqb Ascii.eqb Bool.eqb negb andb PROXY_GROUPS.FALLBACK
       PROXY_GROUPS.LANDING].
  rewrite filter_app. unfold members. f_equal.
  - apply filter_all. intros s Hs.
    rewrite countryGroupNames_of_countries in Hs.
    apply in_map_iff in Hs as (c & <- & Hc).
    apply countries_of_in_catalog in Hc as [meta Hmeta].
    apply andb_true_iff; split; apply negb_true_iff, String.eqb_neq; intros E.
    + change PROXY_GROUPS.LANDING with ("落地" ++ NODE_SUFFIX)%string in E.
      apply append_suffix_inj in E. subst c. discriminate Hmeta.
    + symmetry in E. revert E. now apply not_a_region_name.
  - now destruct (hasLowCost config).
Qed.

Lemma front_proxy_members_witness :
  let flags := mkFlags false true false false false false false 0 in
  landing flags = true
  /\ defaultFallback (lists_of flags scenario)
     = [ "落地节点"; "香港节点"; "美国节点"; "低倍率节点"; "手动选择"; "DIRECT" ].
Proof.
  intros flags. split; [reflexivity|].
  rewrite (proj1 (@front_proxy_members flags scenario module_heap eq_refl)).
  reflexivity.
Defined.

(** ** Further properties: pools, rules and the emitted configuration *)

(** X9. [buildCountryProxyGroups] makes one pool for each region that the
    catalog lookup finds, in the order given and under the region's
    selector name; a region the lookup does not find is skipped, so there
    are never more pools than regions.  The lookup misses exactly the names
    that are neither catalog keys nor members of [Object.prototype]. *)
Theorem pools_follow_found_regions :
  (forall countries landing loadBalance,
      map group_name (buildCountryProxyGroups countries landing loadBalance)
      = map (fun c => Some (c ++ NODE_SUFFIX)%string)
            (filter (fun c => match countriesMeta_at c with
                              | Some _ => true
                              | None => false
                              end)
                    countries)
      /\ (length (buildCountryProxyGroups countries landing loadBalance)
          <= length countries)%nat
      /\ forall c g,
          countriesMeta_at c = None ->
          In g (buildCountryProxyGroups countries landing loadBalance) ->
          group_name g <> Some (c ++ NODE_SUFFIX)%string)
  /\ (forall c,
         countriesMeta_at c = None
         <-> obj_get c countriesMeta = None /\ ~ In c Object_prototype_keys).
Proof.
  split.
  - intros countries landing loadBalance.
    assert (Hnames : map group_name (buildCountryProxyGroups countries landing loadBalance)
                     = map (fun c => Some (c ++ NODE_SUFFIX)%string)
                           (filter (fun c => match countriesMeta_at c with
                                             | Some _ => true
                                             | None => false
                                             end)
                                   countries)).
    { rewrite <- (map_map (fun c => (c ++ NODE_SUFFIX)%string) Some).
      apply names_to_group_names. rewrite pool_names. now rewrite map_map. }
    split; [exact Hnames|]. split.
    + rewrite <- (length_map group_name), Hnames, length_map. apply filter_length_le.
    + intros c g Hc Hin Hname.
      apply pool_fields in Hin as (c' & meta & _ & Hmeta & Hn & _).
      apply group_name_prop in Hname. rewrite Hn in Hname. injection Hname as Hname.
      apply append_suffix_inj in Hname. subst c'. congruence.
  - intros c. unfold countriesMeta_at.
    destruct (obj_get c countriesMeta) as [meta|].
    + split; [discriminate | intros [H _]; discriminate H].
    + destruct (existsb (String.eqb c) Object_prototype_keys) eqn:E.
      * split; [discriminate|]. intros [_ H]. exfalso. apply H.
        apply existsb_exists in E as (k & Hk & Ek). apply String.eqb_eq in Ek.
        now subst k.
      * split; [|reflexivity]. intros _. split; [reflexivity|]. intros H.
        assert (E' : existsb (String.eqb c) Object_prototype_keys = true)
          by (apply existsb_exists; exists c; split; [exact H | apply String.eqb_refl]).
        congruence.
Qed.

Lemma pools_follow_found_regions_witness :
  countriesMeta_at "火星" = None
  /\ map group_name (buildCountryProxyGroups [ "火星"; "日本" ] false false)
     = [ Some "日本节点" ].
Proof.
  split; [reflexivity|].
  rewrite (proj1 (proj1 pools_follow_found_regions [ "火星"; "日本" ] false false)).
  reflexivity.
Defined.

Lemma base_rules_shape : forallb rule_shape_ok baseRules_entries = true.
Proof. vm_compute. reflexivity. Qed.

Lemma service_names_are_hubs (t : string) :
  In t service_names -> In t (hub_names false false).
Proof.
  unfold service_names. simpl In at 1. intros H.
  repeat (destruct H as [<-|H]; [in_list|]). destruct H.
Qed.

Lemma rule_shape_sound (rule : string) :
  rule_shape_ok rule = true ->
  (exists t, rule = ("MATCH," ++ t)%string /\ In t service_names)
  \/ (exists p t opt,
         rule = ("RULE-SET," ++ p ++ "," ++ t ++ opt)%string
         /\ In opt [ ""; ",no-resolve" ]
         /\ In p (obj_keys ruleProviders)
         /\ In t service_names).
Proof.
  unfold rule_shape_ok. rewrite orb_true_iff. intros [H|H].
  - left. apply existsb_exists in H as (t & Ht & E). apply String.eqb_eq in E.
    now exists t.
  - right. apply existsb_exists in H as (p & Hp & H).
    apply existsb_exists in H as (t & Ht & H).
    apply existsb_exists in H as (opt & Hopt & E). apply String.eqb_eq in E.
    now exists p, t, opt.
Qed.

(** X14. Every emitted rule can be followed: it is the QUIC block, which
    rejects, or it names a group that is emitted whatever the flags and
    the proxies are, and, for a [RULE-SET] rule, a provider that
    [rule-providers] declares. *)
Theorem rules_name_emitted_groups (flags : Flags) (config : Config) (h : Heap)
        (rule : string) :
  intact h ->
  In rule (rules (fst (main flags config h))) ->
  let emitted t :=
    exists g, In g (proxy_groups (fst (main flags config h)))
              /\ group_name g = Some t in
  rule = QUIC_BLOCK
  \/ (exists t, rule = ("MATCH," ++ t)%string /\ emitted t)
  \/ (exists p t opt,
         rule = ("RULE-SET," ++ p ++ "," ++ t ++ opt)%string
         /\ In opt [ ""; ",no-resolve" ]
         /\ (exists provider, obj_get p ruleProviders = Some provider)
         /\ emitted t).
Proof.
  intros Hh Hin emitted.
  assert (Hem : forall t, In t service_names -> emitted t).
  { intros t Ht. apply emitted_name_iff. apply in_or_app. left.
    now apply hub_names_grow, service_names_are_hubs. }
  rewrite main_rules in Hin.
  destruct (buildRules_intact (quicEnabled flags) Hh) as [_ E]. rewrite E in Hin.
  assert (Hbase : In rule baseRules_entries ->
                  (exists t, rule = ("MATCH," ++ t)%string /\ emitted t)
                  \/ (exists p t opt,
                         rule = ("RULE-SET," ++ p ++ "," ++ t ++ opt)%string
                         /\ In opt [ ""; ",no-resolve" ]
                         /\ (exists provider, obj_get p ruleProviders = Some provider)
                         /\ emitted t)).
  { intros Hb. pose proof base_rules_shape as Hall.
    rewrite forallb_forall in Hall. apply Hall, rule_shape_sound in Hb.
    destruct Hb as [(t & -> & Ht) | (p & t & opt & -> & Hopt & Hp & Ht)].
    - left. exists t. split; [reflexivity | now apply Hem].
    - right. exists p, t, opt. repeat split; [exact Hopt | | now apply Hem].
      destruct (obj_get p ruleProviders) as [provider|] eqn:Ep; [now exists provider|].
      now apply obj_get_None_keys in Ep. }
  destruct (quicEnabled flags).
  - right. now apply Hbase.
  - destruct Hin as [<-|Hin]; [now left | right; now apply Hbase].
Qed.

Lemma rules_name_emitted_groups_witness :
  intact module_heap
  /\ In "MATCH,🐟 漏网之鱼" (rules (fst (main default_flags scenario module_heap)))
  /\ ("MATCH,🐟 漏网之鱼" = QUIC_BLOCK
      \/ (exists t, "MATCH,🐟 漏网之鱼" = ("MATCH," ++ t)%string)
      \/ (exists p t opt,
             "MATCH,🐟 漏网之鱼" = ("RULE-SET," ++ p ++ "," ++ t ++ opt)%string)).
Proof.
  assert (Hin : In "MATCH,🐟 漏网之鱼"
                   (rules (fst (main default_flags scenario module_heap)))).
  { rewrite main_rules. simpl. repeat (first [left; reflexivity | right]). }
  split; [exact module_heap_intact|]. split; [exact Hin|].
  destruct (@rules_name_emitted_groups default_flags scenario module_heap _
              module_heap_intact Hin)
    as [H | [(t & H & _) | (p & t & opt & H & _)]].
  - now left.
  - right. left. now exists t.
  - right. right. now exists p, t, opt.
Defined.

(** X15. [main] hands the proxies on as it received them and adds its
    keys in a fixed order: the settings of the full configuration first,
    when asked for, then the seven keys it always adds.  No key is added
    twice and none is [proxies], so nothing that is added is overwritten. *)
Theorem main_adds_keys_in_order (flags : Flags) (config : Config) (h : Heap) :
  let out := fst (main flags config h) in
  result_proxies out = proxies config
  /\ obj_keys (assigned out)
     = (if fullConfig flags then full_keys else []) ++ injected_keys
  /\ NoDup (obj_keys (assigned out))
  /\ obj_get "proxies" (assigned out) = None.
Proof.
  unfold main. destruct (buildRules (quicEnabled flags) h) as [finalRules h'].
  cbn [fst result_proxies assigned].
  destruct (fullConfig flags);
    unfold Object_assign, obj_keys;
    cbn [fold_left obj_set obj_get fst snd map String.eqb Ascii.eqb Bool.eqb];
    (repeat split; [apply distinct_NoDup; reflexivity]).
Qed.

(** X16. The settings that depend on flags follow them: the DNS block is
    the fake-ip variant, with its filter list, exactly when fake-ip is
    enabled and the redir-host variant without a filter list otherwise;
    its [ipv6] is the IPv6 flag, as is the top-level [ipv6] of the full
    configuration, where [disable-keep-alive] is the negated keep-alive
    flag.  Without the full configuration neither key is set. *)
Theorem settings_follow_flags (flags : Flags) (config : Config) (h : Heap) :
  let out := assigned (fst (main flags config h)) in
  (exists dns,
      prop out "dns" = VObj dns
      /\ prop dns "enhanced-mode"
         = VStr (if fakeIPEnabled flags then "fake-ip" else "redir-host")
      /\ prop dns "ipv6" = VBool (ipv6Enabled flags)
      /\ (obj_get "fake-ip-filter" dns <> None <-> fakeIPEnabled flags = true))
  /\ (fullConfig flags = true ->
      prop out "ipv6" = VBool (ipv6Enabled flags)
      /\ prop out "disable-keep-alive" = VBool (negb (keepAliveEnabled flags)))
  /\ (fullConfig flags = false ->
      prop out "ipv6" = VUndefined /\ prop out "disable-keep-alive" = VUndefined).
Proof.
  unfold main. destruct (buildRules (quicEnabled flags) h) as [finalRules h'].
  cbn [fst assigned].
  destruct (fullConfig flags);
    unfold Object_assign, prop;
    cbn [fold_left obj_set obj_get fst snd String.eqb Ascii.eqb Bool.eqb];
    (split; [|split; [intros H; first [discriminate H | split; reflexivity]
                     |intros H; first [discriminate H | split; reflexivity]]]);
    eexists; (split; [reflexivity|]);
    destruct (fakeIPEnabled flags);
    (repeat split; try reflexivity; try discriminate; try (intros H; now elim H)).
Qed.

Lemma settings_follow_flags_witness :
  let flags := mkFlags false false true true false true false 0 in
  fullConfig flags = true
  /\ prop (assigned (fst (main flags scenario module_heap))) "ipv6" = VBool true.
Proof.
  intros flags. split; [reflexivity|].
  exact (proj1 (proj1 (proj2 (@settings_follow_flags flags scenario module_heap))
                      eq_refl)).
Defined.

Lemma hub_names_conditional (landing lowCost : bool) :
  (In "前置代理" (hub_names landing lowCost) <-> landing = true)
  /\ (In PROXY_GROUPS.LANDING (hub_names landing lowCost) <-> landing = true)
  /\ (In PROXY_GROUPS.LOW_COST (hub_names landing lowCost) <-> lowCost = true).
Proof.
  destruct landing, lowCost; repeat split; intros H;
    first [ reflexivity
          | discriminate H
          | in_list
          | exfalso; unfold PROXY_GROUPS.LANDING, PROXY_GROUPS.LOW_COST in H;
            simpl in H;
            repeat (destruct H as [H|H]; [discriminate H|]); exact H ].
Qed.

(** X20. The optional groups are emitted exactly with their feature:
    前置代理 and 落地节点 when landing is enabled, 低倍率节点 when some
    proxy is low-cost, and the pool of a region when the region is
    reported with a count that reaches the threshold. *)
Theorem optional_groups_follow_features (flags : Flags) (config : Config) (h : Heap) :
  let emitted s :=
    exists g, In g (proxy_groups (fst (main flags config h)))
              /\ group_name g = Some s in
  (emitted "前置代理" <-> landing flags = true)
  /\ (emitted PROXY_GROUPS.LANDING <-> landing flags = true)
  /\ (emitted PROXY_GROUPS.LOW_COST <-> hasLowCost config = true)
  /\ (forall c,
         In c (obj_keys countriesMeta) ->
         emitted (c ++ NODE_SUFFIX)%string
         <-> exists n, In (mkRegionCount c n) (parseCountries config)
                       /\ (countryThreshold flags <= n)%Z).
Proof.
  intros emitted.
  assert (Hsel : forall c,
             In (c ++ NODE_SUFFIX)%string (countryGroupNames_of flags config)
             <-> exists n, In (mkRegionCount c n) (parseCountries config)
                           /\ (countryThreshold flags <= n)%Z).
  { intros c. unfold countryGroupNames_of, getCountryGroupNames.
    rewrite in_map_iff. split.
    - intros ([c' n] & E & Hin). simpl in E. apply append_suffix_inj in E. subst c'.
      apply filter_In in Hin as [Hin Hge]. simpl in Hge. apply Z.geb_le in Hge.
      now exists n.
    - intros (n & Hin & Hge). exists (mkRegionCount c n). split; [reflexivity|].
      apply filter_In. split; [exact Hin|]. simpl. now apply Z.geb_le. }
  assert (Hhub : forall s,
             In s (hub_names (landing flags) (hasLowCost config)) ->
             (emitted s <-> True)).
  { intros s Hs. split; [trivial|]. intros _. apply emitted_name_iff.
    apply in_or_app. now left. }
  assert (Hiff : forall s,
             match_at_end NODE_SUFFIX s = None
             \/ (exists c, s = (c ++ NODE_SUFFIX)%string
                           /\ obj_get c countriesMeta = None) ->
             s <> "GLOBAL" ->
             (emitted s <-> In s (hub_names (landing flags) (hasLowCost config)))).
  { intros s Hs Hg. unfold emitted. rewrite emitted_name_iff. split.
    - intros H. apply in_app_or in H as [H|H]; [exact H|].
      apply in_app_or in H as [H|[<-|[]]]; [|congruence].
      exfalso. rewrite countryGroupNames_of_countries in H.
      apply in_map_iff in H as (c & E & Hc).
      apply countries_of_in_catalog in Hc as [meta Hmeta].
      destruct Hs as [Hs | (c' & -> & Hc')].
      + symmetry in E. revert E. now apply not_a_region_name.
      + apply append_suffix_inj in E. subst c'.
        unfold countriesMeta_at in Hmeta. rewrite Hc' in Hmeta.
        destruct (existsb (String.eqb c) Object_prototype_keys); discriminate Hmeta.
    - intros H. apply in_or_app. now left. }
  destruct (hub_names_conditional (landing flags) (hasLowCost config))
    as (Hf & Hl & Hc).
  split; [|split; [|split]].
  - rewrite Hiff; [exact Hf | left; reflexivity | discriminate].
  - rewrite Hiff; [exact Hl | right; now exists "落地" | discriminate].
  - rewrite Hiff; [exact Hc | right; now exists "低倍率" | discriminate].
  - intros c Hcat. rewrite <- Hsel. unfold emitted. rewrite emitted_name_iff. split.
    + intros H. apply in_app_or in H as [H|H].
      * exfalso. apply hub_names_regions in H. simpl in Hcat.
        destruct H as [-> | ->];
          repeat (destruct Hcat as [Hcat|Hcat]; [discriminate Hcat|]); exact Hcat.
      * apply in_app_or in H as [H|[E|[]]]; [exact H|].
        exfalso. revert E. now apply not_a_region_name.
    + intros H. apply in_or_app. right. apply in_or_app. now left.
Qed.
